(** * Analytics helpers of the retail ETL pipeline (dags/helpers.py)

    A shallow embedding of the four transformations of [dags/helpers.py]:
    [remove_outliers_zscore], [top_categories], [customer_segmentation] and
    [cohort_retention_analysis], of the task [cleansing_data] of
    [dags/etl_exercise.py] that calls the first one, and the properties the
    specification states about them.

    Numbers.  The source computes on IEEE doubles.  The first part of the
    embedding computes on exact rationals ([Q]) and keeps the one special
    value that drives the behaviour of the code, NaN, as an explicit case:
    the z-score of a column of standard deviation 0 (0/0) and the quantile of
    an empty column.  Comparisons with NaN are false, as in numpy.  It is the
    program wherever the double operations are exact (counts, keys, dates,
    constant columns), and the properties stated on it are those that
    rounding does not touch.  The module [Machine] gives the three helpers
    that compute on the amounts for the doubles that the libraries return,
    whatever their rounding, and all four as programs on a store of objects.

    Tables.  A pandas DataFrame is an ordered sequence of records.  The two
    columns that [cohort_retention_analysis] assigns on its argument
    ([cohort] and [period]) are optional fields of the record: [None] is a
    column that was never assigned. *)

From Stdlib Require Import List ZArith QArith Qround Qabs Bool String Ascii.
From Stdlib Require Import Permutation Lia Sorted.
From Stdlib Require Import Reals Qreals Psatz.
Import ListNotations.

Local Open Scope Z_scope.

(** ** Calendar dates and period buckets *)

Record date := mkDate { year : Z; month : Z; day : Z }.

Definition date_leb (a b : date) : bool :=
  if year a <? year b then true
  else if year b <? year a then false
  else if month a <? month b then true
  else if month b <? month a then false
  else day a <=? day b.

Definition date_min (a b : date) : date := if date_leb a b then a else b.

(** Days since 1970-01-01 of a proleptic Gregorian date. *)
Definition days_from_civil (d : date) : Z :=
  let y := if month d <=? 2 then year d - 1 else year d in
  let era := y / 400 in
  let yoe := y - era * 400 in
  let mp := (month d + 9) mod 12 in
  let doy := (153 * mp + 2) / 5 + day d - 1 in
  let doe := yoe * 365 + yoe / 4 - yoe / 100 + doy in
  era * 146097 + doe - 719468.

(** [to_period]: the ordinal of the pandas Period that contains a date, for
    the frequency aliases of the docstring ('D', 'W', 'M') and for quarters
    and years.  [None] is an alias that pandas rejects (it raises) or that
    this table does not cover (pandas accepts more aliases, such as 'h' or
    'W-MON'); the properties below are stated for the aliases of the table. *)
Definition to_period (time_period : string) : option (date -> Z) :=
  if String.eqb time_period "D" then Some days_from_civil
  else if String.eqb time_period "W" then
    Some (fun d => (days_from_civil d + 3) / 7 + 1)
  else if String.eqb time_period "M" then
    Some (fun d => (year d - 1970) * 12 + (month d - 1))
  else if String.eqb time_period "Q" then
    Some (fun d => (year d - 1970) * 4 + (month d - 1) / 3)
  else if String.eqb time_period "Y" then Some (fun d => year d - 1970)
  else None.

(** ** Transaction tables *)

Record Transaction := mkTransaction {
  user_id : Z;
  item_id : Z;
  item_category : string;
  item_price : Q;
  quantity : Z;
  total_amount : Q;
  transaction_date : date;
  cohort : option Z;
  period : option Z
}.

Definition DataFrame := list Transaction.

Definition set_cohort (c : option Z) (r : Transaction) : Transaction :=
  mkTransaction (user_id r) (item_id r) (item_category r) (item_price r)
    (quantity r) (total_amount r) (transaction_date r) c (period r).

Definition set_period (p : option Z) (r : Transaction) : Transaction :=
  mkTransaction (user_id r) (item_id r) (item_category r) (item_price r)
    (quantity r) (total_amount r) (transaction_date r) (cohort r) p.

(** [df[column]] for the numeric columns of the table.  [None] is a name
    that is not a column (KeyError), a column of strings (TypeError in
    [zscore]) or the column of dates, which this table does not cover. *)
Definition numeric_column (column : string) : option (Transaction -> Q) :=
  if String.eqb column "user_id" then Some (fun r => inject_Z (user_id r))
  else if String.eqb column "item_id" then Some (fun r => inject_Z (item_id r))
  else if String.eqb column "item_price" then Some item_price
  else if String.eqb column "quantity" then Some (fun r => inject_Z (quantity r))
  else if String.eqb column "total_amount" then Some total_amount
  else None.

(** ** Generic list helpers: sums, sorting, distinct values *)

Definition Qsum (l : list Q) : Q := fold_right Qplus 0%Q l.

Section Sorting.
Context {A : Type} (leb : A -> A -> bool).

Fixpoint insert_sorted (x : A) (l : list A) : list A :=
  match l with
  | [] => [x]
  | y :: l' => if leb x y then x :: l else y :: insert_sorted x l'
  end.

(** Stable insertion sort, ascending for [leb]. *)
Definition isort (l : list A) : list A := fold_right insert_sorted [] l.
End Sorting.

(** ** OutlierFilter: [remove_outliers_zscore] *)

(** A z-score as scipy returns it: NaN, or the quotient [dev / sqrt var]
    of a deviation from the mean by the standard deviation, kept as the pair
    (deviation, variance) so that comparisons stay exact. *)
Inductive zvalue :=
| ZNaN
| ZRatio (dev var : Q).

Definition mean (xs : list Q) : Q := (Qsum xs / inject_Z (Z.of_nat (List.length xs)))%Q.

(** Population variance ([ddof = 0], the default of [scipy.stats.zscore]). *)
Definition variance (xs : list Q) : Q :=
  let m := mean xs in
  (Qsum (map (fun x => (x - m) * (x - m)) xs) / inject_Z (Z.of_nat (List.length xs)))%Q.

(** [scipy.stats.zscore]: mean and standard deviation are computed once over
    the whole column; a column of standard deviation 0 gives 0/0 = NaN at
    every position. *)
Definition zscore (xs : list Q) : list zvalue :=
  let m := mean xs in
  let v := variance xs in
  map (fun x => if Qeq_bool v 0 then ZNaN else ZRatio (x - m) v) xs.

(** [abs(z) <= threshold], elementwise.  [|dev| / sqrt var <= t] with
    [var > 0] is [0 <= t] and [dev^2 <= t^2 * var]; NaN compares false. *)
Definition abs_le (z : zvalue) (threshold : Q) : bool :=
  match z with
  | ZNaN => false
  | ZRatio dev var =>
      Qle_bool 0 threshold && Qle_bool (dev * dev) (threshold * threshold * var)
  end.

(** [df[mask]]: boolean indexing keeps the rows whose mask entry is true. *)
Fixpoint boolean_index {A : Type} (df : list A) (mask : list bool) : list A :=
  match df, mask with
  | r :: df', b :: mask' =>
      if b then r :: boolean_index df' mask' else boolean_index df' mask'
  | _, _ => []
  end.

Definition remove_outliers_zscore (df : DataFrame) (column : string)
    (threshold : Q) : option DataFrame :=
  match numeric_column column with
  | None => None
  | Some col =>
      let z_scores := zscore (map col df) in
      Some (boolean_index df (map (fun z => abs_le z threshold) z_scores))
  end.

(** ** pandas building blocks: groupby, sort_values, head, quantile *)

Section GroupBy.
Context {R K : Type} (K_eq_dec : forall a b : K, {a = b} + {a <> b})
        (K_leb : K -> K -> bool).

Definition key_is (key : R -> K) (k : K) (r : R) : bool :=
  if K_eq_dec (key r) k then true else false.

(** The group keys of [groupby(key)]: the distinct keys, in ascending
    order ([sort=True] is the default). *)
Definition group_keys (key : R -> K) (data : list R) : list K :=
  isort K_leb (nodup K_eq_dec (map key data)).

(** [groupby(key)[val].sum().reset_index()]. *)
Definition groupby_sum (key : R -> K) (val : R -> Q) (data : list R)
  : list (K * Q) :=
  map (fun k => (k, Qsum (map val (filter (key_is key k) data))))
      (group_keys key data).
End GroupBy.

Definition nunique (l : list Z) : nat := List.length (nodup Z.eq_dec l).

(** [DataFrame.head(n)]: the first [n] rows; for a negative [n], all rows
    except the last [|n|]. *)
Definition head {A : Type} (n : Z) (l : list A) : list A :=
  if 0 <=? n then firstn (Z.to_nat n) l
  else firstn (List.length l - Z.to_nat (- n)) l.

(** The linear interpolation of the sorted values [s] at the position
    [h = i + g]: [s[i] + (s[i+1] - s[i]) * g], where a missing [s[i+1]]
    (past the last value) counts as [s[i]]. *)
Definition interpolate (s : list Q) (h : Q) : Q :=
  let i := Qfloor h in
  let g := (h - inject_Z i)%Q in
  let lo := nth (Z.to_nat i) s 0%Q in
  let hi := nth (Z.to_nat (i + 1)) s lo in
  (lo + (hi - lo) * g)%Q.

(** [Series.quantile(q)] with linear interpolation: NaN ([None]) on an empty
    column, otherwise the interpolation of the sorted values at the position
    [(n - 1) * q]. *)
Definition quantile (xs : list Q) (q : Q) : option Q :=
  match xs with
  | [] => None
  | _ :: _ =>
      Some (interpolate (isort Qle_bool xs)
              (inject_Z (Z.of_nat (List.length xs) - 1) * q)%Q)
  end.

(** Comparisons of a number with a possibly-NaN threshold. *)
Definition le_nan (x : Q) (t : option Q) : bool :=
  match t with Some y => Qle_bool x y | None => false end.

Definition gt_nan (x : Q) (t : option Q) : bool :=
  match t with Some y => negb (Qle_bool x y) | None => false end.

(** [np.select(condlist, choicelist, default)] at one position: the choice
    of the first condition that holds there, else the default. *)
Fixpoint np_select {A : Type} (condlist : list bool) (choicelist : list A)
    (default : A) : A :=
  match condlist, choicelist with
  | c :: condlist', x :: choicelist' =>
      if c then x else np_select condlist' choicelist' default
  | _, _ => default
  end.

(** ** CategoryRanker: [top_categories] *)

Record CategorySummary := mkCategorySummary {
  category : string;
  category_total : Q
}.

(** [sort_values(by='total_amount', ascending=False)]. *)
Definition sort_by_total_desc (l : list CategorySummary) : list CategorySummary :=
  isort (fun a b => Qle_bool (category_total b) (category_total a)) l.

Definition category_sales (data : DataFrame) : list CategorySummary :=
  map (fun kv => mkCategorySummary (fst kv) (snd kv))
      (groupby_sum string_dec String.leb item_category total_amount data).

Definition top_categories (data : DataFrame) (top_n : Z) : list CategorySummary :=
  head top_n (sort_by_total_desc (category_sales data)).

(** ** CustomerSegmenter: [customer_segmentation] *)

Record CustomerSegment := mkCustomerSegment {
  segment_user : Z;
  spending : Q;
  segment : string
}.

Definition choices : list string :=
  ["low_spenders"; "medium_spenders"; "high_spenders"]%string.

(** The three conditions of the source at one user total. *)
Definition conditions (total : Q) (low_threshold high_threshold : option Q)
  : list bool :=
  [ le_nan total low_threshold;
    gt_nan total low_threshold && le_nan total high_threshold;
    gt_nan total high_threshold ].

Definition user_spending (data : DataFrame) : list (Z * Q) :=
  groupby_sum Z.eq_dec Z.leb user_id total_amount data.

Definition customer_segmentation (data : DataFrame) : list CustomerSegment :=
  let spent := user_spending data in
  let low_threshold := quantile (map snd spent) (33 # 100) in
  let high_threshold := quantile (map snd spent) (66 # 100) in
  map (fun us =>
         mkCustomerSegment (fst us) (snd us)
           (np_select (conditions (snd us) low_threshold high_threshold)
                      choices "low_spenders"%string))
      spent.

(** ** CohortRetentionAnalyzer: [cohort_retention_analysis] *)

(** The function assigns columns on the DataFrame it is given, so it is a
    computation on the caller's table: from the table before the call to the
    table after it and a result, or no result when an exception is raised. *)
Definition Frame (A : Type) : Type := DataFrame -> DataFrame * option A.

Definition ret {A : Type} (a : A) : Frame A := fun df => (df, Some a).

Definition bind {A B : Type} (m : Frame A) (k : A -> Frame B) : Frame B :=
  fun df =>
    match m df with
    | (df', Some a) => k a df'
    | (df', None) => (df', None)
    end.

Definition get_frame : Frame DataFrame := fun df => (df, Some df).

Definition assign (f : DataFrame -> DataFrame) : Frame unit :=
  fun df => (f df, Some tt).

Definition raise_if_none {A : Type} (o : option A) : Frame A :=
  fun df => (df, o).

Notation "x <- m ;; k" := (bind m (fun x => k))
  (at level 61, m at next level, right associativity).
Notation "m ;;; k" := (bind m (fun _ => k))
  (at level 61, right associativity).

Record CohortRetention := mkCohortRetention {
  retention_cohort : Z;
  retention_period : Z;
  retained_users : nat;
  cohort_size : nat;
  retention_rate : Q
}.

(** [groupby('user_id')['transaction_date'].transform('min')] at one row: the
    earliest date among the rows of the same user (the row itself is one). *)
Definition first_purchase (data : DataFrame) (r : Transaction) : date :=
  fold_right date_min (transaction_date r)
    (map transaction_date (filter (fun r' => user_id r' =? user_id r) data)).

(** [data['transaction_date'] = pd.to_datetime(...)]: the column already
    holds calendar dates, which [to_datetime] leaves as they are. *)
Definition convert_transaction_date (data : DataFrame) : DataFrame := data.

(** [data['cohort'] = ...transform('min').dt.to_period(time_period)]. *)
Definition assign_cohort (bucket : date -> Z) (data : DataFrame) : DataFrame :=
  map (fun r => set_cohort (Some (bucket (first_purchase data r))) r) data.

(** [data['period'] = (transaction_date.to_period - data['cohort']).n]. *)
Definition assign_period (bucket : date -> Z) (data : DataFrame) : DataFrame :=
  map (fun r =>
         set_period
           (option_map (fun c => bucket (transaction_date r) - c) (cohort r)) r)
      data.

Definition pair_eq_dec (a b : Z * Z) : {a = b} + {a <> b}.
Proof. decide equality; apply Z.eq_dec. Defined.

Definition triple_eq_dec (a b : Z * Z * Z) : {a = b} + {a <> b}.
Proof. decide equality; [apply Z.eq_dec | apply pair_eq_dec]. Defined.

Definition pair_leb (a b : Z * Z) : bool :=
  (fst a <? fst b) || ((fst a =? fst b) && (snd a <=? snd b)).

Definition triple_leb (a b : Z * Z * Z) : bool :=
  match a, b with
  | (a12, a3), (b12, b3) =>
      if pair_eq_dec a12 b12 then a3 <=? b3 else pair_leb a12 b12
  end.

(** The (cohort, period, user_id) key of a row; a row with a missing key is
    dropped by [groupby]. *)
Definition cohort_key (r : Transaction) : option (Z * Z * Z) :=
  match cohort r, period r with
  | Some c, Some p => Some (c, p, user_id r)
  | _, _ => None
  end.

Fixpoint keep_some {A : Type} (l : list (option A)) : list A :=
  match l with
  | [] => []
  | Some a :: l' => a :: keep_some l'
  | None :: l' => keep_some l'
  end.

(** The group keys of the rows of a table. *)
Definition frame_keys (data : DataFrame) : list (Z * Z * Z) :=
  keep_some (map cohort_key data).

(** [data.groupby(['cohort', 'period', 'user_id']).size()
        .reset_index(name='purchase_count')]. *)
Definition cohort_data (data : DataFrame) : list (Z * Z * Z * nat) :=
  map (fun k => (k, count_occ triple_eq_dec (frame_keys data) k))
      (isort triple_leb (nodup triple_eq_dec (frame_keys data))).

Definition cd_cohort (x : Z * Z * Z * nat) : Z := fst (fst (fst x)).
Definition cd_period (x : Z * Z * Z * nat) : Z := snd (fst (fst x)).
Definition cd_user (x : Z * Z * Z * nat) : Z := snd (fst x).

(** The [user_id] column of the group of one cohort, and of the group of
    one (cohort, period) pair. *)
Definition cohort_users (cd : list (Z * Z * Z * nat)) (c : Z) : list Z :=
  map cd_user (filter (fun x => cd_cohort x =? c) cd).

Definition period_users (cd : list (Z * Z * Z * nat)) (c p : Z) : list Z :=
  map cd_user (filter (fun x => (cd_cohort x =? c) && (cd_period x =? p)) cd).

(** [cohort_data.groupby('cohort')['user_id'].nunique()
        .reset_index(name='cohort_size')]. *)
Definition cohort_sizes (cd : list (Z * Z * Z * nat)) : list (Z * nat) :=
  map (fun c => (c, nunique (cohort_users cd c)))
      (isort Z.leb (nodup Z.eq_dec (map cd_cohort cd))).

(** [cohort_data.groupby(['cohort', 'period'])['user_id'].nunique()
        .reset_index(name='retained_users')]. *)
Definition cohort_periods (cd : list (Z * Z * Z * nat)) : list (Z * Z) :=
  isort pair_leb
    (nodup pair_eq_dec (map (fun x => (cd_cohort x, cd_period x)) cd)).

Definition retained (cd : list (Z * Z * Z * nat)) : list (Z * Z * nat) :=
  map (fun cp => (cp, nunique (period_users cd (fst cp) (snd cp))))
      (cohort_periods cd).

Definition rate (retained_count size : nat) : Q :=
  (inject_Z (Z.of_nat retained_count) / inject_Z (Z.of_nat size) * 100)%Q.

(** [pd.merge(retained_users, cohort_size, on='cohort')] followed by the
    [retention_rate] column. *)
Definition merge_on_cohort (left : list (Z * Z * nat)) (right : list (Z * nat))
  : list CohortRetention :=
  flat_map (fun l =>
    map (fun r =>
           mkCohortRetention (fst (fst l)) (snd (fst l)) (snd l) (snd r)
             (rate (snd l) (snd r)))
        (filter (fun r => fst r =? fst (fst l)) right))
    left.

Definition retention_table (data : DataFrame) : list CohortRetention :=
  let cd := cohort_data data in
  merge_on_cohort (retained cd) (cohort_sizes cd).

Definition cohort_retention_frame (time_period : string)
  : Frame (list CohortRetention) :=
  assign convert_transaction_date ;;;
  bucket <- raise_if_none (to_period time_period) ;;
  assign (assign_cohort bucket) ;;;
  assign (assign_period bucket) ;;;
  data <- get_frame ;;
  ret (retention_table data).

(** The value returned by the call, if any. *)
Definition cohort_retention_analysis (data : DataFrame) (time_period : string)
  : option (list CohortRetention) :=
  snd (cohort_retention_frame time_period data).

(** The caller's table after the call. *)
Definition cohort_retention_effect (data : DataFrame) (time_period : string)
  : DataFrame :=
  fst (cohort_retention_frame time_period data).

(** ** Specification-side definitions and sample tables *)

(** The z-score that [zscore] puts at the position of a value [x] of the
    column [xs]. *)
Definition zscore_at (xs : list Q) (x : Q) : zvalue :=
  if Qeq_bool (variance xs) 0 then ZNaN else ZRatio (x - mean xs) (variance xs).

(** *** The specification's reading of the filter, over the reals *)



(** A three-row table used to run the definitions. *)
Definition sample_row (u : Z) (c : string) (price : Q) (d : date) : Transaction :=
  mkTransaction u 0 c price 1 price d None None.

Definition sample_table : DataFrame :=
  [ sample_row 1 "books" 100 (mkDate 2021 1 5);
    sample_row 1 "games" 50 (mkDate 2021 2 10);
    sample_row 2 "books" 30 (mkDate 2021 1 20) ].


(** A column of two equal prices (standard deviation 0). *)
Definition constant_table : DataFrame :=
  [ sample_row 1 "books" 5 (mkDate 2021 1 5);
    sample_row 2 "books" 5 (mkDate 2021 1 6) ].

(** *** The helpers as computations on the caller's table

    [remove_outliers_zscore], [top_categories] and [customer_segmentation]
    only read their argument: no statement of theirs assigns to it. *)
Definition reading {A : Type} (f : DataFrame -> option A) : Frame A :=
  df <- get_frame ;; raise_if_none (f df).

Definition customer_segmentation_frame : Frame (list CustomerSegment) :=
  reading (fun df => Some (customer_segmentation df)).

(** Two records agree on every column of the input schema. *)
Definition same_transaction (r r' : Transaction) : Prop :=
  user_id r = user_id r' /\ item_id r = item_id r' /\
  item_category r = item_category r' /\ item_price r = item_price r' /\
  quantity r = quantity r' /\ total_amount r = total_amount r' /\
  transaction_date r = transaction_date r'.


(** The length that [head top_n] leaves of a table of [n] rows. *)
Definition head_length (top_n : Z) (n : nat) : nat :=
  if 0 <=? top_n then Nat.min (Z.to_nat top_n) n else (n - Z.to_nat (- top_n))%nat.

(** The number of distinct item categories of a table. *)
Definition distinct_categories (data : DataFrame) : nat :=
  List.length (nodup string_dec (map item_category data)).





(** The (cohort, period, user_id) key that the two assignments give to a row
    of the table: the bucket of the user's first purchase, and the number of
    buckets from it to the bucket of the row's own date. *)
Definition row_key (bucket : date -> Z) (data : DataFrame) (r : Transaction)
  : Z * Z * Z :=
  (bucket (first_purchase data r),
   bucket (transaction_date r) - bucket (first_purchase data r),
   user_id r).


(** The record of the merged table for one (cohort, period) pair. *)
Definition retention_record (cd : list (Z * Z * Z * nat)) (cp : Z * Z)
  : CohortRetention :=
  mkCohortRetention (fst cp) (snd cp)
    (nunique (period_users cd (fst cp) (snd cp)))
    (nunique (cohort_users cd (fst cp)))
    (rate (nunique (period_users cd (fst cp) (snd cp)))
          (nunique (cohort_users cd (fst cp)))).

(** Two users with one purchase each, both in January 2021. *)
Definition same_month_table : DataFrame :=
  [ sample_row 1 "books" 100 (mkDate 2021 1 5);
    sample_row 2 "books" 30 (mkDate 2021 1 20) ].

(** Two users with one purchase each, in different months. *)
Definition two_months_table : DataFrame :=
  [ sample_row 1 "books" 100 (mkDate 2021 1 5);
    sample_row 2 "books" 30 (mkDate 2021 2 20) ].


(** ** The pipeline tasks that call the helpers (dags/etl_exercise.py) *)

(** A row of the extracted CSV: any cell may be missing (NaN). *)
Record RawTransaction := mkRawTransaction {
  raw_user_id : option Z;
  raw_item_id : option Z;
  raw_item_category : option string;
  raw_item_price : option Q;
  raw_quantity : option Z;
  raw_transaction_date : option date
}.

(** A raw row without missing cells, as a row of a table.  The column
    [total_amount] does not exist before [transform_data] assigns it; the
    field holds 0 until then and nothing reads it. *)
Definition complete_row (r : RawTransaction) : option Transaction :=
  match raw_user_id r, raw_item_id r, raw_item_category r,
        raw_item_price r, raw_quantity r, raw_transaction_date r with
  | Some u, Some i, Some c, Some p, Some q, Some d =>
      Some (mkTransaction u i c p q 0 d None None)
  | _, _, _, _, _, _ => None
  end.

(** [df.dropna(inplace=True)]: the rows with a missing cell are dropped. *)
Definition dropna (raw : list RawTransaction) : DataFrame :=
  keep_some (map complete_row raw).

(** The task [cleansing_data]: drop the rows with missing values, convert the
    dates, then filter the outliers of [item_price] and, on what is left,
    those of [quantity], both with the default threshold 3. *)
Definition cleansing_data (transactions_data : list RawTransaction)
  : option DataFrame :=
  let df := dropna transactions_data in
  let df := convert_transaction_date df in
  match remove_outliers_zscore df "item_price" 3 with
  | None => None
  | Some df => remove_outliers_zscore df "quantity" 3
  end.

(** The rank of a segment name. *)
Definition segment_level (s : string) : nat :=
  if String.eqb s "low_spenders" then 0
  else if String.eqb s "medium_spenders" then 1
  else 2.

(** A raw row with every cell present. *)
Definition raw_row (u : Z) (c : string) (price : Q) (q : Z) (d : date)
  : RawTransaction :=
  mkRawTransaction (Some u) (Some 0) (Some c) (Some price) (Some q) (Some d).

(** Four purchases of three users and one row with a missing category. *)
Definition raw_sample : list RawTransaction :=
  [ raw_row 1 "books" 10 1 (mkDate 2021 1 5);
    raw_row 2 "games" 20 2 (mkDate 2021 1 9);
    mkRawTransaction (Some 3) (Some 0) None (Some 5%Q) (Some 1)
      (Some (mkDate 2021 1 9));
    raw_row 3 "books" 30 3 (mkDate 2021 2 1);
    raw_row 1 "music" 40 4 (mkDate 2021 3 7) ].


(** A Timestamp has a month between 1 and 12. *)
Definition valid_month (d : date) : Prop := 1 <= month d <= 12.


(** The cohort of a user: the bucket of the first purchase of any of the
    user's rows (0 for a user without rows). *)
Definition user_cohort (bucket : date -> Z) (data : DataFrame) (u : Z) : Z :=
  match find (fun r => user_id r =? u) data with
  | Some r => bucket (first_purchase data r)
  | None => 0
  end.


(** The complete rows of [raw_sample], as a table. *)
Definition raw_table_sample : DataFrame := dropna raw_sample.


(** * The helpers on the numbers and the objects of pandas

    The definitions above compute with exact rationals.  pandas, numpy and
    scipy compute in double precision: a sum or a quantile is rounded and may
    overflow, and a z-score may be NaN.  In this part the results of the
    three numeric library routines that the helpers call are parameters: the
    helpers are modelled for whatever doubles the library returns.  What the
    helpers themselves do with these numbers, comparing them, is exact on
    doubles and is computed.

    A DataFrame is an object: the helpers are also given as programs on a
    store of objects, in which an assignment to a column changes the object
    assigned to and every library call that returns a table allocates one. *)

Module Machine.

(** A double: NaN, an infinity, or a finite double, which is a rational. *)
Inductive fnum :=
| FNaN
| FInf (negative : bool)
| FNum (value : Q).

Definition is_nan (a : fnum) : bool :=
  match a with FNaN => true | _ => false end.

(** [a <= b] on doubles: false when either side is NaN. *)
Definition fle (a b : fnum) : bool :=
  match a, b with
  | FNum x, FNum y => Qle_bool x y
  | FInf true, (FNum _ | FInf _) => true
  | (FNum _ | FInf _), FInf false => true
  | _, _ => false
  end.

(** [a > b] on doubles: false when either side is NaN. *)
Definition fgt (a b : fnum) : bool := fle b a && negb (fle a b).

(** [abs(z) <= threshold] for a finite threshold. *)
Definition fabs_le (z : fnum) (threshold : Q) : bool :=
  match z with
  | FNum q => Qle_bool (Qabs q) threshold
  | _ => false
  end.

(** Two doubles are the same value. *)
Definition same_value (a b : fnum) : Prop :=
  match a, b with
  | FNaN, FNaN => True
  | FInf s, FInf s' => s = s'
  | FNum x, FNum y => (x == y)%Q
  | _, _ => False
  end.

(** The numeric routines of the libraries.  Their laws are facts of the
    libraries that hold whatever the rounding: [zscore] returns an array of
    the shape of its argument, and the linear interpolation
    [a + (b - a) * t] that numpy's quantile computes between two equal
    values is that value, or NaN when the value is an infinity. *)
Class Numerics := {
  (** [scipy.stats.zscore] of a column of doubles *)
  zscore_lib : list Q -> list fnum;
  (** the sum of one group of [groupby(...)[column].sum()] *)
  sum_lib : list Q -> fnum;
  (** [Series.quantile(q)] *)
  quantile_lib : list fnum -> Q -> fnum;
  zscore_lib_length :
    forall xs, List.length (zscore_lib xs) = List.length xs;
  quantile_lib_constant :
    forall xs v q, xs <> [] -> (forall x, In x xs -> same_value x v) ->
    same_value (quantile_lib xs q) v \/ quantile_lib xs q = FNaN
}.

Record CategoryTotal := mkCategoryTotal {
  ct_category : string;
  ct_total : fnum
}.

Record SegmentRow := mkSegmentRow {
  sr_user : Z;
  sr_total : fnum;
  sr_segment : string
}.

Section GroupByAgg.
Context {R K V : Type} (K_eq_dec : forall a b : K, {a = b} + {a <> b})
        (K_leb : K -> K -> bool).

(** [groupby(key)[val].agg().reset_index()]: one row per distinct key, in
    ascending order of the key, with the aggregate of the values of the rows
    of the group, taken in the order of the table. *)
Definition groupby_agg (key : R -> K) (val : R -> Q) (agg : list Q -> V)
    (data : list R) : list (K * V) :=
  map (fun k => (k, agg (map val (filter (key_is K_eq_dec key k) data))))
      (group_keys K_eq_dec K_leb key data).
End GroupByAgg.

Section Helpers.
Context {N : Numerics}.

(** *** The values the helpers return *)

Definition remove_outliers_zscore (df : DataFrame) (column : string)
    (threshold : Q) : option DataFrame :=
  match numeric_column column with
  | None => None
  | Some col =>
      let z_scores := zscore_lib (map col df) in
      Some (boolean_index df (map (fun z => fabs_le z threshold) z_scores))
  end.

Definition category_sales (data : DataFrame) : list CategoryTotal :=
  map (fun kv => mkCategoryTotal (fst kv) (snd kv))
      (groupby_agg string_dec String.leb item_category total_amount sum_lib data).

(** The order of [sort_values(by='total_amount', ascending=False)]: a row
    may follow another when its total is NaN (NaN goes last) or is at most
    the total of the other. *)
Definition desc_leb (a b : CategoryTotal) : bool :=
  is_nan (ct_total b) || fle (ct_total b) (ct_total a).

Definition sort_by_total_desc (l : list CategoryTotal) : list CategoryTotal :=
  isort desc_leb l.

Definition top_categories (data : DataFrame) (top_n : Z) : list CategoryTotal :=
  head top_n (sort_by_total_desc (category_sales data)).

Definition user_spending (data : DataFrame) : list (Z * fnum) :=
  groupby_agg Z.eq_dec Z.leb user_id total_amount sum_lib data.

(** The three conditions of the source at one user total. *)
Definition conditions (total low_threshold high_threshold : fnum) : list bool :=
  [ fle total low_threshold;
    fgt total low_threshold && fle total high_threshold;
    fgt total high_threshold ].

(** [user_spending['segment'] = np.select(conditions, choices,
    default='low_spenders')]. *)
Definition with_segment (spent : list (Z * fnum)) : list SegmentRow :=
  let low_threshold := quantile_lib (map snd spent) (33 # 100) in
  let high_threshold := quantile_lib (map snd spent) (66 # 100) in
  map (fun us =>
         mkSegmentRow (fst us) (snd us)
           (np_select (conditions (snd us) low_threshold high_threshold)
                      choices "low_spenders"%string))
      spent.

Definition customer_segmentation (data : DataFrame) : list SegmentRow :=
  with_segment (user_spending data).

(** *** The helpers as programs on a store of objects *)

Inductive frame :=
| Transactions (rows : DataFrame)
| Spending (rows : list (Z * fnum))
| Segments (rows : list SegmentRow)
| Categories (rows : list CategoryTotal)
| CohortData (rows : list (Z * Z * Z * nat))
| CohortSizes (rows : list (Z * nat))
| RetainedUsers (rows : list (Z * Z * nat))
| Merged (rows : list (Z * Z * nat * nat))
| Retention (rows : list CohortRetention).

(** A reference to an object is its position in the store. *)
Definition ref := nat.
Definition Store := list frame.

(** A program: from a store to the store after it and a result, or no
    result when an exception is raised. *)
Definition Heap (A : Type) : Type := Store -> Store * option A.

Definition hret {A : Type} (a : A) : Heap A := fun s => (s, Some a).

Definition hbind {A B : Type} (m : Heap A) (k : A -> Heap B) : Heap B :=
  fun s =>
    match m s with
    | (s', Some a) => k a s'
    | (s', None) => (s', None)
    end.

Definition hraise_if_none {A : Type} (o : option A) : Heap A :=
  fun s => (s, o).

(** A library call that returns a new table. *)
Definition alloc (f : frame) : Heap ref :=
  fun s => (s ++ [f], Some (List.length s)).

Definition read (r : ref) : Heap frame := fun s => (s, nth_error s r).

Fixpoint replace_nth {A : Type} (n : nat) (x : A) (l : list A) : list A :=
  match l, n with
  | [], _ => []
  | _ :: l', O => x :: l'
  | y :: l', S n' => y :: replace_nth n' x l'
  end.

(** [obj[column] = values]: the object itself gets the new content. *)
Definition setitem (r : ref) (content : frame) : Heap unit :=
  fun s =>
    if (r <? List.length s)%nat then (replace_nth r content s, Some tt)
    else (s, None).

Notation "x <~ m ;; k" := (hbind m (fun x => k))
  (at level 61, m at next level, right associativity).
Notation "m ;;~ k" := (hbind m (fun _ => k))
  (at level 61, right associativity).

Definition read_transactions (r : ref) : Heap DataFrame :=
  f <~ read r ;;
  hraise_if_none (match f with Transactions rows => Some rows | _ => None end).

Definition read_spending (r : ref) : Heap (list (Z * fnum)) :=
  f <~ read r ;;
  hraise_if_none (match f with Spending rows => Some rows | _ => None end).

Definition read_categories (r : ref) : Heap (list CategoryTotal) :=
  f <~ read r ;;
  hraise_if_none (match f with Categories rows => Some rows | _ => None end).

Definition read_cohort_data (r : ref) : Heap (list (Z * Z * Z * nat)) :=
  f <~ read r ;;
  hraise_if_none (match f with CohortData rows => Some rows | _ => None end).

Definition read_cohort_sizes (r : ref) : Heap (list (Z * nat)) :=
  f <~ read r ;;
  hraise_if_none (match f with CohortSizes rows => Some rows | _ => None end).

Definition read_retained_users (r : ref) : Heap (list (Z * Z * nat)) :=
  f <~ read r ;;
  hraise_if_none (match f with RetainedUsers rows => Some rows | _ => None end).

Definition read_merged (r : ref) : Heap (list (Z * Z * nat * nat)) :=
  f <~ read r ;;
  hraise_if_none (match f with Merged rows => Some rows | _ => None end).

(** Lines 29-30. *)
Definition run_remove_outliers_zscore (df : ref) (column : string)
    (threshold : Q) : Heap ref :=
  rows <~ read_transactions df ;;
  col <~ hraise_if_none (numeric_column column) ;;
  let z_scores := zscore_lib (map col rows) in
  alloc (Transactions
           (boolean_index rows (map (fun z => fabs_le z threshold) z_scores))).

(** Lines 57-60. *)
Definition run_top_categories (data : ref) (top_n : Z) : Heap ref :=
  rows <~ read_transactions data ;;
  category_sales_ref <~ alloc (Categories (category_sales rows)) ;;
  sales <~ read_categories category_sales_ref ;;
  sorted <~ alloc (Categories (sort_by_total_desc sales)) ;;
  ranking <~ read_categories sorted ;;
  alloc (Categories (head top_n ranking)).

(** Lines 96-112. *)
Definition run_customer_segmentation (data : ref) : Heap ref :=
  rows <~ read_transactions data ;;
  user_spending_ref <~ alloc (Spending (user_spending rows)) ;;
  spent <~ read_spending user_spending_ref ;;
  setitem user_spending_ref (Segments (with_segment spent)) ;;~
  hret user_spending_ref.

(** [pd.merge(retained_users, cohort_size, on='cohort')]. *)
Definition merge_rows (left : list (Z * Z * nat)) (right : list (Z * nat))
  : list (Z * Z * nat * nat) :=
  flat_map (fun l =>
    map (fun r => (fst (fst l), snd (fst l), snd l, snd r))
        (filter (fun r => fst r =? fst (fst l)) right))
    left.

(** [retention['retention_rate'] =
       (retention['retained_users'] / retention['cohort_size']) * 100]. *)
Definition with_retention_rate (rows : list (Z * Z * nat * nat))
  : list CohortRetention :=
  map (fun x =>
         match x with
         | (c, p, k, n) => mkCohortRetention c p k n (rate k n)
         end) rows.

(** Lines 152-175. *)
Definition run_cohort_retention_analysis (data : ref) (time_period : string)
  : Heap ref :=
  rows <~ read_transactions data ;;
  setitem data (Transactions (convert_transaction_date rows)) ;;~
  bucket <~ hraise_if_none (to_period time_period) ;;
  rows <~ read_transactions data ;;
  setitem data (Transactions (assign_cohort bucket rows)) ;;~
  rows <~ read_transactions data ;;
  setitem data (Transactions (assign_period bucket rows)) ;;~
  rows <~ read_transactions data ;;
  cohort_data_ref <~ alloc (CohortData (cohort_data rows)) ;;
  cd <~ read_cohort_data cohort_data_ref ;;
  cohort_size_ref <~ alloc (CohortSizes (cohort_sizes cd)) ;;
  cd <~ read_cohort_data cohort_data_ref ;;
  retained_users_ref <~ alloc (RetainedUsers (retained cd)) ;;
  left <~ read_retained_users retained_users_ref ;;
  right <~ read_cohort_sizes cohort_size_ref ;;
  retention <~ alloc (Merged (merge_rows left right)) ;;
  merged <~ read_merged retention ;;
  setitem retention (Retention (with_retention_rate merged)) ;;~
  hret retention.

End Helpers.

(** Every object that a store holds is still in the later store, unchanged:
    the later store only has more objects. *)
Definition extends (s s' : Store) : Prop := exists new, s' = s ++ new.




(** The order of a ranking: NaN totals last, the others non-increasing. *)
Definition ranks_before (a b : CategoryTotal) : Prop :=
  is_nan (ct_total b) = true \/ fle (ct_total b) (ct_total a) = true.

End Machine.


(** ** Numerics to run the definitions on

    Exact arithmetic with the overflow of doubles: a sum beyond the largest
    double is an infinity, the quantile of equal values is that value (NaN
    for an infinity), and the standard deviation of the z-score is a
    rational approximation of the square root. *)

Definition max_double : Q := inject_Z (2 ^ 1024 - 2 ^ 971).

Definition saturate (q : Q) : Machine.fnum :=
  if Qle_bool (Qabs q) max_double then Machine.FNum q
  else Machine.FInf (negb (Qle_bool 0 q)).

Definition approx_sqrt (v : Q) : Q :=
  Z.sqrt (Qnum v * Zpos (Qden v) * 10 ^ 24) # (Qden v * 10 ^ 12).

Definition sample_zscore (xs : list Q) : list Machine.fnum :=
  let m := mean xs in
  let s := approx_sqrt (variance xs) in
  map (fun x => if Qeq_bool s 0 then Machine.FNaN
                else Machine.FNum ((x - m) / s)) xs.

Definition same_valueb (a b : Machine.fnum) : bool :=
  match a, b with
  | Machine.FNaN, Machine.FNaN => true
  | Machine.FInf s, Machine.FInf s' => Bool.eqb s s'
  | Machine.FNum x, Machine.FNum y => Qeq_bool x y
  | _, _ => false
  end.

Fixpoint finite_values (xs : list Machine.fnum) : option (list Q) :=
  match xs with
  | [] => Some []
  | Machine.FNum q :: xs' => option_map (cons q) (finite_values xs')
  | _ :: _ => None
  end.

Definition sample_quantile (xs : list Machine.fnum) (q : Q) : Machine.fnum :=
  match xs with
  | [] => Machine.FNaN
  | x :: _ =>
      if forallb (same_valueb x) xs then
        match x with Machine.FNum _ => x | _ => Machine.FNaN end
      else
        match finite_values xs with
        | Some qs =>
            match quantile qs q with
            | Some p => Machine.FNum p
            | None => Machine.FNaN
            end
        | None => Machine.FNaN
        end
  end.

(** One user whose two purchases add up to more than the largest double. *)
Definition overflow_table : DataFrame :=
  [ sample_row 1 "books" (inject_Z (10 ^ 308)) (mkDate 2021 1 5);
    sample_row 1 "games" (inject_Z (10 ^ 308)) (mkDate 2021 1 6) ].



(** * Properties *)

(** ** Lists *)

Lemma boolean_index_map {A B : Type} (f : B -> bool) (g : A -> B) (l : list A) :
  boolean_index l (map f (map g l)) = filter (fun r => f (g r)) l.
Proof.
  induction l as [|a l IH]; simpl; [reflexivity|].
  destruct (f (g a)); now rewrite IH.
Qed.

Section SortingFacts.
Context {A : Type} (leb : A -> A -> bool).

Lemma insert_sorted_perm (x : A) (l : list A) :
  Permutation (x :: l) (insert_sorted leb x l).
Proof.
  induction l as [|y l IH]; simpl; [apply Permutation_refl|].
  destruct (leb x y); [apply Permutation_refl|].
  eapply Permutation_trans; [apply perm_swap|].
  now apply perm_skip.
Qed.

Lemma isort_perm (l : list A) : Permutation l (isort leb l).
Proof.
  induction l as [|x l IH]; simpl; [constructor|].
  eapply Permutation_trans; [|apply insert_sorted_perm].
  now apply perm_skip.
Qed.

Lemma isort_In (x : A) (l : list A) : In x (isort leb l) <-> In x l.
Proof.
  split; intro H.
  - eapply Permutation_in; [apply Permutation_sym, isort_perm | exact H].
  - eapply Permutation_in; [apply isort_perm | exact H].
Qed.

Lemma isort_length (l : list A) : List.length (isort leb l) = List.length l.
Proof. symmetry. apply Permutation_length, isort_perm. Qed.

Lemma isort_NoDup (l : list A) : NoDup l -> NoDup (isort leb l).
Proof. apply Permutation_NoDup, isort_perm. Qed.

(** With a total comparison the result is sorted. *)
Hypothesis leb_total : forall a b, leb a b = false -> leb b a = true.

Lemma insert_sorted_sorted (x : A) (l : list A) :
  LocallySorted (fun a b => leb a b = true) l ->
  LocallySorted (fun a b => leb a b = true) (insert_sorted leb x l).
Proof.
  induction 1 as [|a|a b l Hs IH Hab]; simpl.
  - constructor.
  - destruct (leb x a) eqn:E; repeat constructor; auto.
  - simpl in IH. destruct (leb x a) eqn:E.
    + repeat constructor; auto.
    + destruct (leb x b) eqn:E'.
      * repeat constructor; auto.
      * constructor; auto.
Qed.

Lemma isort_sorted (l : list A) :
  LocallySorted (fun a b => leb a b = true) (isort leb l).
Proof.
  induction l as [|x l IH]; simpl; [constructor|].
  now apply insert_sorted_sorted.
Qed.
End SortingFacts.

(** ** Mean, variance and the standardized score *)

Lemma Qsquare_nonneg (a : Q) : (0 <= a * a)%Q.
Proof. nra. Qed.

Lemma Qsum_squares_nonneg (m : Q) (xs : list Q) :
  (0 <= Qsum (map (fun x => (x - m) * (x - m)) xs))%Q.
Proof.
  induction xs as [|x xs IH]; [apply Qle_refl|].
  cbn [map Qsum fold_right]. fold (Qsum (map (fun x => (x - m) * (x - m)) xs))%Q.
  pose proof (Qsquare_nonneg (x - m)).
  lra.
Qed.

Lemma variance_nonneg (xs : list Q) : (0 <= variance xs)%Q.
Proof.
  unfold variance, Qdiv.
  apply Qmult_le_0_compat; [apply Qsum_squares_nonneg|].
  apply Qinv_le_0_compat.
  change 0%Q with (inject_Z 0). rewrite <- Zle_Qle. lia.
Qed.

Lemma zscore_pointwise (xs : list Q) : zscore xs = map (zscore_at xs) xs.
Proof. reflexivity. Qed.

(** ** OutlierFilter *)

Lemma zero_variance_drops_all (df : DataFrame) (column : string)
    (col : Transaction -> Q) (threshold : Q) :
  numeric_column column = Some col ->
  (variance (map col df) == 0)%Q ->
  remove_outliers_zscore df column threshold = Some [].
Proof.
  intros Hcol Hv. unfold remove_outliers_zscore. rewrite Hcol. cbv zeta.
  rewrite zscore_pointwise, (map_map col),
    (boolean_index_map (fun z => abs_le z threshold)).
  f_equal. unfold zscore_at.
  apply Qeq_bool_iff in Hv. rewrite Hv. simpl. clear Hv.
  induction df as [|r df IH]; [reflexivity | exact IH].
Qed.

(** C2.  On a non-empty table whose [item_price] column is constant (its
    variance is 0) the filter returns the empty table: every row is removed,
    where the specification keeps every row. *)
Theorem constant_column_loses_every_row :
  constant_table <> [] /\
  (variance (map item_price constant_table) == 0)%Q /\
  remove_outliers_zscore constant_table "item_price" 3 = Some [] /\
  remove_outliers_zscore constant_table "item_price" 3 <> Some constant_table.
Proof.
  split; [discriminate|]. split; [reflexivity|].
  split; [reflexivity | discriminate].
Qed.

(** ** Effects on the caller's table *)

Lemma assign_cohort_same (bucket : date -> Z) (data : DataFrame) :
  Forall2 same_transaction data (assign_cohort bucket data).
Proof.
  unfold assign_cohort. generalize data at 2. intro d0.
  induction data as [|r data IH]; simpl; constructor; [|exact IH].
  repeat split.
Qed.

Lemma assign_period_same (bucket : date -> Z) (data : DataFrame) :
  Forall2 same_transaction data (assign_period bucket data).
Proof.
  unfold assign_period.
  induction data as [|r data IH]; simpl; constructor; [|exact IH].
  repeat split.
Qed.

Lemma same_transaction_trans (a b c : Transaction) :
  same_transaction a b -> same_transaction b c -> same_transaction a c.
Proof. unfold same_transaction. intuition congruence. Qed.

Lemma Forall2_same_trans (l1 l2 l3 : DataFrame) :
  Forall2 same_transaction l1 l2 -> Forall2 same_transaction l2 l3 ->
  Forall2 same_transaction l1 l3.
Proof.
  intro H. revert l3. induction H; intros l3 H3; inversion H3; subst;
    constructor; eauto using same_transaction_trans.
Qed.

Lemma cohort_retention_frame_valid (time_period : string) (bucket : date -> Z)
    (data : DataFrame) :
  to_period time_period = Some bucket ->
  cohort_retention_frame time_period data =
    (assign_period bucket (assign_cohort bucket data),
     Some (retention_table (assign_period bucket (assign_cohort bucket data)))).
Proof.
  intro H. unfold cohort_retention_frame, bind, assign, raise_if_none,
    get_frame, ret, convert_transaction_date. rewrite H. reflexivity.
Qed.

Lemma cohort_retention_frame_invalid (time_period : string) (data : DataFrame) :
  to_period time_period = None ->
  cohort_retention_frame time_period data = (data, None).
Proof.
  intro H. unfold cohort_retention_frame, bind, assign, raise_if_none,
    convert_transaction_date. rewrite H. reflexivity.
Qed.

Lemma Forall2_same_refl (l : DataFrame) : Forall2 same_transaction l l.
Proof. induction l; constructor; auto. repeat split. Qed.

Lemma LocallySorted_impl {A : Type} (P Q : A -> A -> Prop) (l : list A) :
  (forall a b, P a b -> Q a b) -> LocallySorted P l -> LocallySorted Q l.
Proof. intro H. induction 1; constructor; auto. Qed.

(** ** groupby *)

Section GroupByFacts.
Context {R K : Type} (K_eq_dec : forall a b : K, {a = b} + {a <> b})
        (K_leb : K -> K -> bool) (key : R -> K) (val : R -> Q).

Lemma group_keys_In (k : K) (data : list R) :
  In k (group_keys K_eq_dec K_leb key data) <-> In k (map key data).
Proof. unfold group_keys. now rewrite isort_In, nodup_In. Qed.

Lemma group_keys_NoDup (data : list R) :
  NoDup (group_keys K_eq_dec K_leb key data).
Proof. apply isort_NoDup, NoDup_nodup. Qed.

Lemma group_keys_length (data : list R) :
  List.length (group_keys K_eq_dec K_leb key data)
  = List.length (nodup K_eq_dec (map key data)).
Proof. apply isort_length. Qed.

Lemma groupby_sum_keys (data : list R) :
  map fst (groupby_sum K_eq_dec K_leb key val data)
  = group_keys K_eq_dec K_leb key data.
Proof. unfold groupby_sum. rewrite map_map. apply map_id. Qed.

Lemma groupby_sum_value (kv : K * Q) (data : list R) :
  In kv (groupby_sum K_eq_dec K_leb key val data) ->
  snd kv = Qsum (map val (filter (key_is K_eq_dec key (fst kv)) data)).
Proof.
  unfold groupby_sum. intro H. apply in_map_iff in H.
  destruct H as (k & <- & _). reflexivity.
Qed.

Lemma groupby_sum_nil (data : list R) :
  groupby_sum K_eq_dec K_leb key val data = [] <-> data = [].
Proof.
  split; [|intros ->; reflexivity].
  intro H. apply (f_equal (map fst)) in H. rewrite groupby_sum_keys in H.
  destruct data as [|r data]; [reflexivity|exfalso].
  assert (Hin : In (key r) (group_keys K_eq_dec K_leb key (r :: data)))
    by (apply group_keys_In; now left).
  rewrite H in Hin. exact Hin.
Qed.
End GroupByFacts.

(** ** CategoryRanker *)

Lemma head_firstn {A : Type} (top_n : Z) (l : list A) :
  head top_n l = firstn (head_length top_n (List.length l)) l.
Proof.
  unfold head, head_length. destruct (0 <=? top_n); [|reflexivity].
  destruct (Nat.le_ge_cases (Z.to_nat top_n) (List.length l)) as [H|H].
  - now rewrite Nat.min_l.
  - rewrite Nat.min_r by exact H. rewrite firstn_all.
    now apply firstn_all2.
Qed.

Lemma head_length_le (top_n : Z) (n : nat) : (head_length top_n n <= n)%nat.
Proof. unfold head_length. destruct (0 <=? top_n); lia. Qed.

Lemma category_sales_categories (data : DataFrame) :
  map category (category_sales data)
  = group_keys string_dec String.leb item_category data.
Proof.
  unfold category_sales. rewrite map_map. cbn [category].
  apply groupby_sum_keys.
Qed.

Lemma key_is_eqb (c : string) (r : Transaction) :
  key_is string_dec item_category c r = String.eqb (item_category r) c.
Proof.
  unfold key_is. destruct (string_dec (item_category r) c) as [->|H].
  - now rewrite String.eqb_refl.
  - symmetry. now apply String.eqb_neq.
Qed.

Lemma total_desc_total (a b : CategorySummary) :
  Qle_bool (category_total b) (category_total a) = false ->
  Qle_bool (category_total a) (category_total b) = true.
Proof.
  intro H. apply Qle_bool_iff.
  destruct (Qlt_le_dec (category_total a) (category_total b)) as [Hlt|Hle].
  - now apply Qlt_le_weak.
  - apply Qle_bool_iff in Hle. congruence.
Qed.

(** C6 as stated fails: a negative [top_n] does not give an empty ranking. *)
Lemma top_categories_negative_not_empty :
  top_categories sample_table (-1) <> [] /\
  List.length (top_categories sample_table (-1))
    <> Nat.min (Z.to_nat (-1)) (distinct_categories sample_table).
Proof. split; discriminate. Qed.

(** ** Quantiles *)

Lemma quantile_interpolate (xs : list Q) (q : Q) :
  xs <> [] ->
  quantile xs q
  = Some (interpolate (isort Qle_bool xs)
            (inject_Z (Z.of_nat (List.length xs) - 1) * q)%Q).
Proof. destruct xs; [congruence | reflexivity]. Qed.

Lemma Qle_bool_total (a b : Q) : Qle_bool a b = false -> Qle_bool b a = true.
Proof.
  intro H. apply Qle_bool_iff.
  destruct (Qlt_le_dec b a) as [Hlt|Hle]; [now apply Qlt_le_weak|].
  apply Qle_bool_iff in Hle. congruence.
Qed.

Lemma isort_Qle_sorted (xs : list Q) : StronglySorted Qle (isort Qle_bool xs).
Proof.
  apply Sorted_StronglySorted; [exact Qle_trans|].
  apply Sorted_LocallySorted_iff.
  eapply LocallySorted_impl; [|apply isort_sorted, Qle_bool_total].
  intros a b. apply Qle_bool_iff.
Qed.

Lemma sorted_nth_le (s : list Q) (d d' : Q) :
  StronglySorted Qle s ->
  forall i j : nat, (i <= j)%nat -> (j < List.length s)%nat ->
  (nth i s d <= nth j s d')%Q.
Proof.
  induction 1 as [|a l Hs IH Hall]; intros i j Hij Hj; simpl in Hj; [lia|].
  destruct i as [|i], j as [|j]; simpl; try lia.
  - apply Qle_refl.
  - rewrite Forall_forall in Hall. apply Hall, nth_In. lia.
  - apply IH; lia.
Qed.

Section Interpolation.
Variable s : list Q.
Hypothesis s_sorted : StronglySorted Qle s.

Let n := List.length s.

Lemma floor_index (h : Q) :
  (0 <= h)%Q -> (h <= inject_Z (Z.of_nat n - 1))%Q ->
  0 <= Qfloor h <= Z.of_nat n - 1.
Proof.
  intros H0 H1. split.
  - change 0 with (Qfloor (inject_Z 0)). now apply Qfloor_resp_le.
  - rewrite <- (Qfloor_Z (Z.of_nat n - 1)). now apply Qfloor_resp_le.
Qed.

Lemma fraction_bounds (h : Q) :
  (0 <= h - inject_Z (Qfloor h))%Q /\ (h - inject_Z (Qfloor h) <= 1)%Q.
Proof.
  pose proof (Qfloor_le h) as H1. pose proof (Qlt_floor h) as H2.
  rewrite inject_Z_plus in H2. change (inject_Z 1) with 1%Q in H2.
  split; lra.
Qed.

Lemma lo_le_hi (i : nat) :
  (i < n)%nat -> (nth i s 0 <= nth (S i) s (nth i s 0))%Q.
Proof.
  intro Hi. destruct (Nat.lt_ge_cases (S i) n) as [H|H].
  - apply sorted_nth_le; auto; lia.
  - rewrite (nth_overflow s (nth i s 0%Q)) by (fold n; lia). apply Qle_refl.
Qed.

Lemma interpolate_bounds (h : Q) :
  (0 <= h)%Q -> (h <= inject_Z (Z.of_nat n - 1))%Q ->
  let i := Z.to_nat (Qfloor h) in
  (nth i s 0 <= interpolate s h)%Q /\
  (interpolate s h <= nth (S i) s (nth i s 0))%Q.
Proof.
  intros H0 H1 i. pose proof (floor_index h H0 H1) as Hi.
  pose proof (fraction_bounds h) as [Hg0 Hg1].
  assert (Hlh : (nth i s 0 <= nth (S i) s (nth i s 0))%Q)
    by (apply lo_le_hi; subst i; lia).
  unfold interpolate. cbv zeta.
  replace (Z.to_nat (Qfloor h + 1)) with (S i) by (subst i; lia).
  fold i.
  set (lo := nth i s 0%Q) in *. set (hi := nth (S i) s lo) in *.
  set (g := (h - inject_Z (Qfloor h))%Q) in *.
  split; nra.
Qed.

End Interpolation.

Lemma position_bounds (n : nat) (q : Q) :
  (0 < n)%nat -> (0 <= q)%Q -> (q <= 1)%Q ->
  (0 <= inject_Z (Z.of_nat n - 1) * q)%Q /\
  (inject_Z (Z.of_nat n - 1) * q <= inject_Z (Z.of_nat n - 1))%Q.
Proof.
  intros Hn H0 H1.
  assert (Hm : (0 <= inject_Z (Z.of_nat n - 1))%Q).
  { change 0%Q with (inject_Z 0). rewrite <- Zle_Qle. lia. }
  set (m := inject_Z (Z.of_nat n - 1)) in *. split; nra.
Qed.

(** ** CustomerSegmenter *)

Lemma customer_segmentation_users (data : DataFrame) :
  map segment_user (customer_segmentation data)
  = group_keys Z.eq_dec Z.leb user_id data.
Proof.
  unfold customer_segmentation. cbv zeta. rewrite map_map. cbn [segment_user].
  apply groupby_sum_keys.
Qed.

Lemma customer_segmentation_spending (data : DataFrame) :
  map spending (customer_segmentation data) = map snd (user_spending data).
Proof.
  unfold customer_segmentation. cbv zeta. rewrite map_map. reflexivity.
Qed.

Lemma customer_segmentation_length (data : DataFrame) :
  List.length (customer_segmentation data)
  = List.length (nodup Z.eq_dec (map user_id data)).
Proof.
  rewrite <- (length_map segment_user), customer_segmentation_users.
  apply group_keys_length.
Qed.

(** C8 as stated fails: on the empty table, the only table with zero
    distinct users, the call raises nothing and returns an empty table. *)
Lemma customer_segmentation_empty_no_error :
  snd (customer_segmentation_frame []) = Some [] /\
  snd (customer_segmentation_frame []) <> None.
Proof. split; [reflexivity | discriminate]. Qed.

(** C8, amended.  [customer_segmentation] never raises; it returns as many
    records as the table has distinct users, so on a table with zero
    distinct users it returns the empty table, the two percentile thresholds
    being NaN. *)
Theorem customer_segmentation_no_users :
  (forall data, snd (customer_segmentation_frame data)
                = Some (customer_segmentation data)) /\
  (forall data, List.length (customer_segmentation data)
                = List.length (nodup Z.eq_dec (map user_id data))) /\
  customer_segmentation [] = [] /\
  quantile (map snd (user_spending [])) (33 # 100) = None /\
  quantile (map snd (user_spending [])) (66 # 100) = None.
Proof.
  split; [reflexivity|]. split; [exact customer_segmentation_length|].
  repeat split.
Qed.

(** ** Dates and first purchases *)

Lemma date_leb_refl (a : date) : date_leb a a = true.
Proof.
  unfold date_leb. rewrite !Z.ltb_irrefl. apply Z.leb_refl.
Qed.

Lemma date_leb_total (a b : date) : date_leb a b = false -> date_leb b a = true.
Proof.
  unfold date_leb.
  destruct (Z.ltb_spec (year a) (year b)), (Z.ltb_spec (year b) (year a));
    try discriminate; try reflexivity; try lia.
  destruct (Z.ltb_spec (month a) (month b)), (Z.ltb_spec (month b) (month a));
    try discriminate; try reflexivity; lia.
Qed.

Lemma date_leb_antisym (a b : date) :
  date_leb a b = true -> date_leb b a = true -> a = b.
Proof.
  unfold date_leb. destruct a as [ya ma da], b as [yb mb db]. cbn [year month day].
  destruct (Z.ltb_spec ya yb), (Z.ltb_spec yb ya);
    try discriminate; try lia.
  destruct (Z.ltb_spec ma mb), (Z.ltb_spec mb ma);
    try discriminate; try lia.
  intros Hab Hba. apply Z.leb_le in Hab, Hba.
  f_equal; lia.
Qed.

Lemma date_leb_trans (a b c : date) :
  date_leb a b = true -> date_leb b c = true -> date_leb a c = true.
Proof.
  unfold date_leb.
  destruct (Z.ltb_spec (year a) (year b)), (Z.ltb_spec (year b) (year a)),
    (Z.ltb_spec (year b) (year c)), (Z.ltb_spec (year c) (year b)),
    (Z.ltb_spec (year a) (year c)), (Z.ltb_spec (year c) (year a));
    try discriminate; try reflexivity; try lia.
  destruct (Z.ltb_spec (month a) (month b)), (Z.ltb_spec (month b) (month a)),
    (Z.ltb_spec (month b) (month c)), (Z.ltb_spec (month c) (month b)),
    (Z.ltb_spec (month a) (month c)), (Z.ltb_spec (month c) (month a));
    try discriminate; try reflexivity; lia.
Qed.

(** [fold_right date_min d l] is a least element of [d :: l]. *)
Lemma fold_min_In (d : date) (l : list date) :
  In (fold_right date_min d l) (d :: l).
Proof.
  induction l as [|x l IH]; [now left|].
  cbn [fold_right]. set (m := fold_right date_min d l) in *.
  unfold date_min. destruct (date_leb x m); [right; now left|].
  destruct IH as [H|H]; [now left | right; now right].
Qed.

Lemma fold_min_least (d : date) (l : list date) (x : date) :
  In x (d :: l) -> date_leb (fold_right date_min d l) x = true.
Proof.
  induction l as [|y l IH].
  - intros [<-|[]]. apply date_leb_refl.
  - intro H. cbn [fold_right]. set (m := fold_right date_min d l) in *.
    unfold date_min.
    destruct (date_leb y m) eqn:E.
    + destruct H as [<-|[<-|H]].
      * eapply date_leb_trans; [exact E|]. apply IH. now left.
      * apply date_leb_refl.
      * eapply date_leb_trans; [exact E|]. apply IH. now right.
    + destruct H as [<-|[<-|H]].
      * apply IH. now left.
      * now apply date_leb_total.
      * apply IH. now right.
Qed.

Lemma first_purchase_attained (data : DataFrame) (r : Transaction) :
  In r data ->
  exists r0, In r0 data /\ user_id r0 = user_id r /\
             transaction_date r0 = first_purchase data r.
Proof.
  intro Hr. unfold first_purchase.
  destruct (fold_min_In (transaction_date r)
              (map transaction_date
                 (filter (fun r' => user_id r' =? user_id r) data))) as [H|H].
  - exists r. auto.
  - apply in_map_iff in H. destruct H as (r0 & Hd & Hin).
    apply filter_In in Hin. destruct Hin as [Hin Hu]. apply Z.eqb_eq in Hu.
    exists r0. auto.
Qed.

(** Two rows of one user have the same first purchase. *)
Lemma first_purchase_same_user (data : DataFrame) (r r' : Transaction) :
  In r data -> In r' data -> user_id r = user_id r' ->
  first_purchase data r = first_purchase data r'.
Proof.
  intros Hr Hr' Hu.
  assert (Hmem : forall a b, In a data -> In b data -> user_id a = user_id b ->
            date_leb (first_purchase data a) (first_purchase data b) = true).
  { intros a b Ha Hb Hab. unfold first_purchase at 1.
    apply fold_min_least. right.
    destruct (first_purchase_attained data b Hb) as (b0 & Hb0 & Hub & <-).
    apply in_map, filter_In. split; [exact Hb0|]. apply Z.eqb_eq. congruence. }
  apply date_leb_antisym; apply Hmem; auto.
Qed.

Lemma first_purchase_single (data : DataFrame) (r : Transaction) :
  In r data -> NoDup (map user_id data) ->
  first_purchase data r = transaction_date r.
Proof.
  intros Hr Hnd.
  destruct (first_purchase_attained data r Hr) as (r0 & Hr0 & Hu & <-).
  f_equal.
  clear -Hr Hr0 Hu Hnd. induction data as [|a data IH]; [contradiction|].
  simpl in Hnd. inversion Hnd as [|? ? Hnot Hnd']; subst.
  destruct Hr as [->|Hr], Hr0 as [->|Hr0]; auto.
  - exfalso. apply Hnot. rewrite <- Hu. now apply in_map.
  - exfalso. apply Hnot. rewrite Hu. now apply in_map.
Qed.

Lemma keep_some_map_Some {A B : Type} (f : A -> B) (l : list A) :
  keep_some (map (fun a => Some (f a)) l) = map f l.
Proof. induction l; simpl; congruence. Qed.

Lemma assigned_keys (bucket : date -> Z) (data : DataFrame) :
  frame_keys (assign_period bucket (assign_cohort bucket data))
  = map (row_key bucket data) data.
Proof.
  unfold frame_keys, assign_period, assign_cohort. rewrite !map_map.
  apply keep_some_map_Some.
Qed.

(** ** Distinct counts *)

Lemma nunique_incl_le (l1 l2 : list Z) :
  incl l1 l2 -> (nunique l1 <= nunique l2)%nat.
Proof.
  intro H. unfold nunique. apply NoDup_incl_length; [apply NoDup_nodup|].
  intros x Hx. apply nodup_In. apply H. now apply nodup_In in Hx.
Qed.

Lemma nunique_same (l1 l2 : list Z) :
  (forall x, In x l1 <-> In x l2) -> nunique l1 = nunique l2.
Proof.
  intro H. apply Nat.le_antisymm; apply nunique_incl_le; intros x Hx;
    now apply H.
Qed.

Lemma nunique_pos (l : list Z) (x : Z) : In x l -> (0 < nunique l)%nat.
Proof.
  intro H. unfold nunique. apply (nodup_In Z.eq_dec) in H.
  destruct (nodup Z.eq_dec l); [contradiction | simpl; lia].
Qed.

Lemma nunique_NoDup (l : list Z) : NoDup l -> nunique l = List.length l.
Proof. intro H. unfold nunique. now rewrite nodup_fixed_point. Qed.

(** ** The grouped cohort table *)

Lemma cohort_data_In (data : DataFrame) (x : Z * Z * Z * nat) :
  In x (cohort_data data) <->
  In (fst x) (frame_keys data) /\
  snd x = count_occ triple_eq_dec (frame_keys data) (fst x).
Proof.
  unfold cohort_data. rewrite in_map_iff. split.
  - intros (k & <- & Hk). apply isort_In, nodup_In in Hk. auto.
  - intros [Hk Hc]. exists (fst x). split.
    + destruct x; simpl in *; congruence.
    + now apply isort_In, nodup_In.
Qed.

Lemma cohort_users_In (data : DataFrame) (c u : Z) :
  In u (cohort_users (cohort_data data) c) <->
  exists p, In (c, p, u) (frame_keys data).
Proof.
  unfold cohort_users. rewrite in_map_iff. split.
  - intros (x & <- & Hx). apply filter_In in Hx. destruct Hx as [Hx Hc].
    apply Z.eqb_eq in Hc. apply cohort_data_In in Hx. destruct Hx as [Hx _].
    exists (cd_period x). destruct x as [[[c0 p0] u0] k].
    unfold cd_cohort, cd_period, cd_user in *. simpl in *. now subst.
  - intros (p & Hk).
    exists ((c, p, u), count_occ triple_eq_dec (frame_keys data) (c, p, u)).
    split; [reflexivity|]. apply filter_In. split.
    + now apply cohort_data_In.
    + apply Z.eqb_refl.
Qed.

Lemma period_users_In (data : DataFrame) (c p u : Z) :
  In u (period_users (cohort_data data) c p) <-> In (c, p, u) (frame_keys data).
Proof.
  unfold period_users. rewrite in_map_iff. split.
  - intros (x & <- & Hx). apply filter_In in Hx. destruct Hx as [Hx Hc].
    apply andb_true_iff in Hc. destruct Hc as [Hc Hp].
    apply Z.eqb_eq in Hc, Hp. apply cohort_data_In in Hx. destruct Hx as [Hx _].
    destruct x as [[[c0 p0] u0] k].
    unfold cd_cohort, cd_period, cd_user in *. simpl in *. now subst.
  - intro Hk.
    exists ((c, p, u), count_occ triple_eq_dec (frame_keys data) (c, p, u)).
    split; [reflexivity|]. apply filter_In. split.
    + now apply cohort_data_In.
    + unfold cd_cohort, cd_period. simpl. now rewrite !Z.eqb_refl.
Qed.

Lemma cohort_pairs_In (data : DataFrame) (c p : Z) :
  In (c, p) (map (fun x => (cd_cohort x, cd_period x)) (cohort_data data)) <->
  exists u, In (c, p, u) (frame_keys data).
Proof.
  rewrite in_map_iff. split.
  - intros (x & E & Hx). apply cohort_data_In in Hx. destruct Hx as [Hx _].
    destruct x as [[[c0 p0] u0] k]. unfold cd_cohort, cd_period in E.
    simpl in *. injection E as -> ->. now exists u0.
  - intros (u & Hk).
    exists ((c, p, u), count_occ triple_eq_dec (frame_keys data) (c, p, u)).
    split; [reflexivity | now apply cohort_data_In].
Qed.

Lemma cohorts_In (data : DataFrame) (c : Z) :
  In c (map cd_cohort (cohort_data data)) <->
  exists p u, In (c, p, u) (frame_keys data).
Proof.
  rewrite in_map_iff. split.
  - intros (x & E & Hx). apply cohort_data_In in Hx. destruct Hx as [Hx _].
    destruct x as [[[c0 p0] u0] k]. unfold cd_cohort in E. simpl in *.
    subst. now exists p0, u0.
  - intros (p & u & Hk).
    exists ((c, p, u), count_occ triple_eq_dec (frame_keys data) (c, p, u)).
    split; [reflexivity | now apply cohort_data_In].
Qed.

Lemma lookup_unique {V : Type} (g : Z -> V) (keys : list Z) (c : Z) :
  NoDup keys -> In c keys ->
  filter (fun r => fst r =? c) (map (fun k => (k, g k)) keys) = [(c, g c)].
Proof.
  induction keys as [|k keys IH]; [contradiction|].
  intros Hnd Hin. inversion Hnd as [|? ? Hnot Hnd']; subst.
  cbn [map filter fst].
  assert (Hrest : ~ In c keys ->
            filter (fun r => fst r =? c) (map (fun k => (k, g k)) keys) = []).
  { clear. induction keys as [|a keys IH]; [reflexivity|].
    intro H. cbn [map filter fst].
    destruct (Z.eqb_spec a c) as [->|_]; [exfalso; apply H; now left|].
    apply IH. intro H'. apply H. now right. }
  destruct (Z.eqb_spec k c) as [->|Hne].
  - now rewrite Hrest.
  - destruct Hin as [E|Hin]; [congruence|]. now apply IH.
Qed.

Lemma cohort_sizes_lookup (cd : list (Z * Z * Z * nat)) (c : Z) :
  In c (map cd_cohort cd) ->
  filter (fun r => fst r =? c) (cohort_sizes cd)
  = [(c, nunique (cohort_users cd c))].
Proof.
  intro H. unfold cohort_sizes.
  apply (lookup_unique (fun c => nunique (cohort_users cd c))).
  - apply isort_NoDup, NoDup_nodup.
  - now apply isort_In, nodup_In.
Qed.

(** The merged table: one record per (cohort, period) pair of the grouped
    table, with the size of its cohort. *)
Lemma retention_table_In (data : DataFrame) (x : CohortRetention) :
  In x (retention_table data) <->
  exists c p u,
    In (c, p, u) (frame_keys data) /\
    x = mkCohortRetention c p
          (nunique (period_users (cohort_data data) c p))
          (nunique (cohort_users (cohort_data data) c))
          (rate (nunique (period_users (cohort_data data) c p))
                (nunique (cohort_users (cohort_data data) c))).
Proof.
  unfold retention_table. cbv zeta. unfold merge_on_cohort.
  rewrite in_flat_map. split.
  - intros (l & Hl & Hx). unfold retained, cohort_periods in Hl.
    apply in_map_iff in Hl.
    destruct Hl as ([c p] & <- & Hcp). apply isort_In, nodup_In in Hcp.
    pose proof Hcp as Hcp'. apply cohort_pairs_In in Hcp'.
    destruct Hcp' as (u & Hk). cbn [fst snd] in Hx.
    rewrite cohort_sizes_lookup in Hx
      by (apply cohorts_In; now exists p, u).
    destruct Hx as [<-|[]]. exists c, p, u. auto.
  - intros (c & p & u & Hk & ->).
    exists ((c, p), nunique (period_users (cohort_data data) c p)). split.
    + unfold retained, cohort_periods. apply in_map_iff.
      exists (c, p). split; [reflexivity|].
      apply isort_In, nodup_In, cohort_pairs_In. now exists u.
    + cbn [fst snd]. rewrite cohort_sizes_lookup
        by (apply cohorts_In; now exists p, u).
      now left.
Qed.

Lemma flat_map_singletons {A B : Type} (f : A -> list B) (g : A -> B)
    (l : list A) :
  (forall a, In a l -> f a = [g a]) -> flat_map f l = map g l.
Proof.
  induction l as [|a l IH]; intro H; [reflexivity|].
  cbn [flat_map map]. rewrite (H a) by now left.
  rewrite IH; [reflexivity|]. intros b Hb. apply H. now right.
Qed.

Lemma cohort_periods_In (cd : list (Z * Z * Z * nat)) (cp : Z * Z) :
  In cp (cohort_periods cd) -> In (fst cp) (map cd_cohort cd).
Proof.
  unfold cohort_periods. intro H. apply isort_In, nodup_In in H.
  apply in_map_iff in H. destruct H as (x & <- & Hx).
  cbn [fst]. now apply in_map.
Qed.

Lemma retention_table_rows (data : DataFrame) :
  retention_table data
  = map (retention_record (cohort_data data))
        (cohort_periods (cohort_data data)).
Proof.
  unfold retention_table. cbv zeta. unfold merge_on_cohort, retained.
  rewrite flat_map_concat_map, map_map, <- flat_map_concat_map.
  apply flat_map_singletons. intros cp Hcp. cbn [fst snd].
  rewrite cohort_sizes_lookup by now apply cohort_periods_In.
  reflexivity.
Qed.

(** ** Retention rates *)

Lemma inject_nat_nonneg (n : nat) : (0 <= inject_Z (Z.of_nat n))%Q.
Proof. change 0%Q with (inject_Z 0). rewrite <- Zle_Qle. lia. Qed.

Lemma inject_nat_pos (n : nat) : (0 < n)%nat -> (0 < inject_Z (Z.of_nat n))%Q.
Proof. intro H. change 0%Q with (inject_Z 0). rewrite <- Zlt_Qlt. lia. Qed.

Lemma rate_bounds (k n : nat) :
  (0 < n)%nat -> (k <= n)%nat -> (0 <= rate k n)%Q /\ (rate k n <= 100)%Q.
Proof.
  intros Hn Hk. unfold rate.
  pose proof (inject_nat_pos n Hn) as Hb.
  pose proof (inject_nat_nonneg k) as Ha.
  assert (Hab : (inject_Z (Z.of_nat k) <= inject_Z (Z.of_nat n))%Q)
    by (rewrite <- Zle_Qle; lia).
  set (a := inject_Z (Z.of_nat k)) in *. set (b := inject_Z (Z.of_nat n)) in *.
  assert (H0 : (0 <= a / b)%Q) by (apply Qle_shift_div_l; [exact Hb | lra]).
  assert (H1 : (a / b <= 1)%Q) by (apply Qle_shift_div_r; [exact Hb | lra]).
  split; lra.
Qed.

Lemma rate_full (n : nat) : (0 < n)%nat -> (rate n n == 100)%Q.
Proof.
  intro Hn. unfold rate. pose proof (inject_nat_pos n Hn) as Hb.
  set (b := inject_Z (Z.of_nat n)) in *. field. lra.
Qed.

(** ** CohortRetentionAnalyzer *)

Lemma cohort_retention_analysis_Some (data : DataFrame) (time_period : string)
    (out : list CohortRetention) :
  cohort_retention_analysis data time_period = Some out ->
  exists bucket,
    to_period time_period = Some bucket /\
    out = retention_table (assign_period bucket (assign_cohort bucket data)).
Proof.
  unfold cohort_retention_analysis. intro H.
  destruct (to_period time_period) as [bucket|] eqn:E.
  - rewrite (cohort_retention_frame_valid _ _ _ E) in H. cbn [snd] in H.
    injection H as <-. now exists bucket.
  - rewrite (cohort_retention_frame_invalid _ _ E) in H. discriminate.
Qed.

Section AssignedTable.
Variables (bucket : date -> Z) (data : DataFrame).

Let assigned := assign_period bucket (assign_cohort bucket data).

(** A user of a cohort has a purchase in period 0 of that cohort: the
    first one. *)
Lemma period_zero_key (c p u : Z) :
  In (c, p, u) (frame_keys assigned) -> In (c, 0, u) (frame_keys assigned).
Proof.
  unfold assigned. rewrite assigned_keys, !in_map_iff.
  intros (r & E & Hr). unfold row_key in E. injection E as Ec Ep Eu.
  destruct (first_purchase_attained data r Hr) as (r0 & Hr0 & Hu & Hd).
  exists r0. split; [|exact Hr0]. unfold row_key.
  rewrite (first_purchase_same_user data r0 r Hr0 Hr Hu), Hd, Ec, Hu, Eu.
  now rewrite Z.sub_diag.
Qed.

Lemma period_users_incl (c p : Z) :
  incl (period_users (cohort_data assigned) c p)
       (cohort_users (cohort_data assigned) c).
Proof.
  intros u Hu. apply period_users_In in Hu. apply cohort_users_In.
  now exists p.
Qed.

Lemma period_zero_users (c : Z) :
  nunique (period_users (cohort_data assigned) c 0)
  = nunique (cohort_users (cohort_data assigned) c).
Proof.
  apply nunique_same. intro u. rewrite period_users_In, cohort_users_In.
  split; [intro H; now exists 0|].
  intros (p & H). now apply period_zero_key in H.
Qed.

Lemma cohort_size_pos (c p u : Z) :
  In (c, p, u) (frame_keys assigned) ->
  (0 < nunique (cohort_users (cohort_data assigned) c))%nat.
Proof.
  intro H. apply (nunique_pos _ u). apply cohort_users_In. now exists p.
Qed.
End AssignedTable.

(** C4.  When [cohort_retention_analysis] succeeds, every cohort of the
    output has a period-0 record whose [retained_users] is the cohort's
    [cohort_size], and every period-0 record has [retained_users] equal to
    [cohort_size] and a [retention_rate] of 100. *)
Theorem period_zero_full_retention (data : DataFrame) (time_period : string)
    (out : list CohortRetention) :
  cohort_retention_analysis data time_period = Some out ->
  Forall (fun x => exists y,
            In y out /\ retention_cohort y = retention_cohort x /\
            retention_period y = 0 /\ retained_users y = cohort_size y /\
            cohort_size y = cohort_size x) out /\
  Forall (fun y => retention_period y = 0 ->
                   retained_users y = cohort_size y /\
                   (retention_rate y == 100)%Q) out.
Proof.
  intro H. apply cohort_retention_analysis_Some in H.
  destruct H as (bucket & _ & ->).
  set (assigned := assign_period bucket (assign_cohort bucket data)).
  split; apply Forall_forall; intros x Hx;
    apply retention_table_In in Hx; destruct Hx as (c & p & u & Hk & ->);
    cbn [retention_cohort retention_period retained_users cohort_size
         retention_rate].
  - exists (retention_record (cohort_data assigned) (c, 0)).
    unfold retention_record.
    cbn [fst snd retention_cohort retention_period retained_users cohort_size].
    split; [|repeat split; apply period_zero_users].
    apply retention_table_In. exists c, 0, u.
    split; [now apply (period_zero_key bucket data c p u) | reflexivity].
  - intros ->. unfold assigned. rewrite period_zero_users.
    split; [reflexivity|]. apply rate_full.
    now apply (cohort_size_pos bucket data c 0 u).
Qed.

Lemma period_zero_full_retention_witness :
  exists out,
    cohort_retention_analysis sample_table "M" = Some out /\
    Forall (fun y => retention_period y = 0 ->
                     retained_users y = cohort_size y /\
                     (retention_rate y == 100)%Q) out.
Proof.
  eexists. split; [reflexivity|].
  apply (period_zero_full_retention sample_table "M"). reflexivity.
Defined.

(** C7.  When [cohort_retention_analysis] succeeds, every output record has
    a positive [cohort_size], at most that many [retained_users], and a
    [retention_rate] equal to [retained_users / cohort_size * 100] that lies
    between 0 and 100. *)
Theorem retention_rate_within_bounds (data : DataFrame) (time_period : string)
    (out : list CohortRetention) :
  cohort_retention_analysis data time_period = Some out ->
  Forall (fun x =>
            (0 < cohort_size x)%nat /\
            (retained_users x <= cohort_size x)%nat /\
            retention_rate x
            = (inject_Z (Z.of_nat (retained_users x))
               / inject_Z (Z.of_nat (cohort_size x)) * 100)%Q /\
            (0 <= retention_rate x)%Q /\ (retention_rate x <= 100)%Q) out.
Proof.
  intro H. apply cohort_retention_analysis_Some in H.
  destruct H as (bucket & _ & ->).
  apply Forall_forall. intros x Hx.
  apply retention_table_In in Hx. destruct Hx as (c & p & u & Hk & ->).
  cbn [retention_cohort retention_period retained_users cohort_size
         retention_rate].
  assert (Hpos := cohort_size_pos bucket data c p u Hk).
  assert (Hle := nunique_incl_le _ _ (period_users_incl bucket data c p)).
  split; [exact Hpos|]. split; [exact Hle|]. split; [reflexivity|].
  now apply rate_bounds.
Qed.

Lemma retention_rate_within_bounds_witness :
  exists out,
    cohort_retention_analysis sample_table "M" = Some out /\
    Forall (fun x => (0 <= retention_rate x)%Q /\ (retention_rate x <= 100)%Q)
           out.
Proof.
  eexists. split; [reflexivity|].
  eapply Forall_impl;
    [|apply (retention_rate_within_bounds sample_table "M"); reflexivity].
  intros x (_ & _ & _ & H). exact H.
Defined.

Lemma NoDup_map_same {A B : Type} (f : A -> B) (l : list A) (a b : A) :
  NoDup (map f l) -> In a l -> In b l -> f a = f b -> a = b.
Proof.
  induction l as [|x l IH]; [contradiction|].
  cbn [map]. intros Hnd Ha Hb E. inversion Hnd as [|? ? Hnot Hnd']; subst.
  destruct Ha as [->|Ha], Hb as [->|Hb]; auto.
  - exfalso. apply Hnot. rewrite E. now apply in_map.
  - exfalso. apply Hnot. rewrite <- E. now apply in_map.
Qed.

Section SinglePurchases.
Variables (bucket : date -> Z) (data : DataFrame).
Hypothesis one_purchase : NoDup (map user_id data).
Hypothesis distinct_buckets :
  NoDup (map (fun r => bucket (transaction_date r)) data).

Let assigned := assign_period bucket (assign_cohort bucket data).
Let key0 (r : Transaction) : Z * Z * Z :=
  (bucket (transaction_date r), 0, user_id r).

Lemma single_keys : frame_keys assigned = map key0 data.
Proof.
  unfold assigned. rewrite assigned_keys. apply map_ext_in.
  intros r Hr. unfold row_key, key0.
  rewrite (first_purchase_single data r Hr one_purchase).
  now rewrite Z.sub_diag.
Qed.

Lemma single_keys_NoDup : NoDup (map fst (frame_keys assigned)).
Proof.
  apply (NoDup_map_inv fst). rewrite single_keys, !map_map.
  exact distinct_buckets.
Qed.

Lemma single_pairs :
  map (fun x => (cd_cohort x, cd_period x)) (cohort_data assigned)
  = map fst (isort triple_leb (frame_keys assigned)).
Proof.
  unfold cohort_data. rewrite map_map.
  rewrite (nodup_fixed_point triple_eq_dec)
    by (apply (NoDup_map_inv fst), single_keys_NoDup).
  apply map_ext. now intros [[c p] u].
Qed.

Lemma single_cohort_periods :
  Permutation (cohort_periods (cohort_data assigned))
              (map fst (frame_keys assigned)).
Proof.
  assert (Hp : Permutation (map fst (isort triple_leb (frame_keys assigned)))
                           (map fst (frame_keys assigned)))
    by apply Permutation_map, Permutation_sym, isort_perm.
  unfold cohort_periods. rewrite single_pairs.
  rewrite (nodup_fixed_point pair_eq_dec).
  - eapply Permutation_trans; [apply Permutation_sym, isort_perm | exact Hp].
  - eapply Permutation_NoDup; [apply Permutation_sym, Hp|].
    exact single_keys_NoDup.
Qed.

Lemma single_users (c p u : Z) :
  In (c, p, u) (frame_keys assigned) ->
  p = 0 /\
  (forall u', In u' (cohort_users (cohort_data assigned) c) <-> In u' [u]) /\
  (forall u', In u' (period_users (cohort_data assigned) c p) <-> In u' [u]).
Proof.
  intro Hk. pose proof Hk as Hk'. rewrite single_keys in Hk'.
  apply in_map_iff in Hk'. destruct Hk' as (r & E & Hr).
  unfold key0 in E. injection E as Ec Ep Eu.
  assert (Hsame : forall p' u', In (c, p', u') (frame_keys assigned) -> u' = u).
  { intros p' u' H. rewrite single_keys in H. apply in_map_iff in H.
    destruct H as (r' & E' & Hr'). unfold key0 in E'.
    injection E' as Ec' _ Eu'.
    assert (r' = r)
      by (apply (NoDup_map_same _ _ _ _ distinct_buckets Hr' Hr); congruence).
    congruence. }
  split; [now symmetry|]. split; intro u'.
  - rewrite cohort_users_In. split.
    + intros (p' & H). left. symmetry. now apply (Hsame p').
    + intros [<-|[]]. now exists p.
  - rewrite period_users_In. split.
    + intro H. left. symmetry. now apply (Hsame p).
    + intros [<-|[]]. exact Hk.
Qed.

Lemma single_purchase_table :
  List.length (retention_table assigned) = List.length data /\
  NoDup (map retention_cohort (retention_table assigned)) /\
  Forall (fun x => retention_period x = 0 /\ cohort_size x = 1%nat /\
                   retained_users x = 1%nat)
         (retention_table assigned).
Proof.
  split; [|split].
  - rewrite retention_table_rows, length_map.
    rewrite (Permutation_length single_cohort_periods), length_map.
    now rewrite single_keys, length_map.
  - rewrite retention_table_rows, map_map.
    cbn [retention_record retention_cohort].
    eapply Permutation_NoDup;
      [apply Permutation_sym, Permutation_map, single_cohort_periods|].
    rewrite single_keys, !map_map. exact distinct_buckets.
  - apply Forall_forall. intros x Hx. apply retention_table_In in Hx.
    destruct Hx as (c & p & u & Hk & ->).
    cbn [retention_period cohort_size retained_users].
    destruct (single_users c p u Hk) as (Hp & Hc & Hpu).
    split; [exact Hp|].
    rewrite (nunique_same _ _ Hc), (nunique_same _ _ Hpu).
    split; reflexivity.
Qed.
End SinglePurchases.

(** C9 as stated fails: two users with one purchase each in the same month
    form one cohort of size 2, not two cohorts of size 1. *)
Lemma same_month_users_share_a_cohort :
  NoDup (map user_id same_month_table) /\
  List.length same_month_table = 2%nat /\
  cohort_retention_analysis same_month_table "M"
  = Some [mkCohortRetention 612 0 2 2 (200 # 2)] /\
  ~ (exists out,
        cohort_retention_analysis same_month_table "M" = Some out /\
        List.length out = 2%nat /\
        Forall (fun x => cohort_size x = 1%nat) out).
Proof.
  split; [repeat constructor; simpl; intuition discriminate|].
  split; [reflexivity|]. split; [reflexivity|].
  intros (out & E & Hlen & _). injection E as <-. discriminate Hlen.
Qed.

(** C9, amended.  For a table of N users with exactly one transaction each,
    whose transactions fall in N different buckets of the period
    granularity, [cohort_retention_analysis] returns N records with N
    different cohorts, each of [cohort_size] 1, each a period-0 record with
    one retained user. *)
Theorem single_purchase_cohorts (data : DataFrame) (time_period : string)
    (bucket : date -> Z) :
  to_period time_period = Some bucket ->
  NoDup (map user_id data) ->
  NoDup (map (fun r => bucket (transaction_date r)) data) ->
  exists out,
    cohort_retention_analysis data time_period = Some out /\
    List.length out = List.length data /\
    NoDup (map retention_cohort out) /\
    Forall (fun x => retention_period x = 0 /\ cohort_size x = 1%nat /\
                     retained_users x = 1%nat) out.
Proof.
  intros Hb Hu Hd.
  exists (retention_table (assign_period bucket (assign_cohort bucket data))).
  split.
  - unfold cohort_retention_analysis.
    now rewrite (cohort_retention_frame_valid _ _ _ Hb).
  - now apply single_purchase_table.
Qed.

Lemma single_purchase_cohorts_witness :
  exists out,
    cohort_retention_analysis two_months_table "M" = Some out /\
    List.length out = List.length two_months_table /\
    NoDup (map retention_cohort out) /\
    Forall (fun x => retention_period x = 0 /\ cohort_size x = 1%nat /\
                     retained_users x = 1%nat) out.
Proof.
  apply (single_purchase_cohorts two_months_table "M"
           (fun d => (year d - 1970) * 12 + (month d - 1))).
  - reflexivity.
  - repeat constructor; simpl; intuition discriminate.
  - repeat constructor; simpl; intuition discriminate.
Defined.

(** * Further properties of the helpers and of the pipeline tasks *)

(** ** OutlierFilter: thresholds *)

Lemma filter_none {A : Type} (f : A -> bool) (l : list A) :
  (forall a, In a l -> f a = false) -> filter f l = [].
Proof.
  induction l as [|a l IH]; intro H; [reflexivity|].
  cbn [filter]. rewrite (H a) by now left.
  apply IH. intros b Hb. apply H. now right.
Qed.

Lemma filter_refines {A : Type} (f g : A -> bool) (l : list A) :
  (forall a, f a = true -> g a = true) -> filter f l = filter f (filter g l).
Proof.
  intro H. induction l as [|a l IH]; [reflexivity|].
  cbn [filter]. destruct (f a) eqn:Ef.
  - rewrite (H a Ef). cbn [filter]. rewrite Ef. now f_equal.
  - destruct (g a); [cbn [filter]; now rewrite Ef | exact IH].
Qed.

Lemma remove_outliers_zscore_filter (df : DataFrame) (column : string)
    (col : Transaction -> Q) (threshold : Q) :
  numeric_column column = Some col ->
  remove_outliers_zscore df column threshold
  = Some (filter (fun r => abs_le (zscore_at (map col df) (col r)) threshold) df).
Proof.
  intro Hcol. unfold remove_outliers_zscore. rewrite Hcol. cbv zeta.
  rewrite zscore_pointwise, (map_map col).
  now rewrite (boolean_index_map (fun z => abs_le z threshold)).
Qed.

Lemma abs_le_negative (z : zvalue) (threshold : Q) :
  (threshold < 0)%Q -> abs_le z threshold = false.
Proof.
  intro H. destruct z as [|d v]; [reflexivity|]. cbn [abs_le].
  destruct (Qle_bool 0 threshold) eqn:E; [|reflexivity].
  apply Qle_bool_iff in E. lra.
Qed.

Lemma abs_le_mono (xs : list Q) (x t1 t2 : Q) :
  (t1 <= t2)%Q ->
  abs_le (zscore_at xs x) t1 = true -> abs_le (zscore_at xs x) t2 = true.
Proof.
  intro Ht. unfold zscore_at. pose proof (variance_nonneg xs) as Hv.
  destruct (Qeq_bool (variance xs) 0); [discriminate|]. cbn [abs_le].
  rewrite !andb_true_iff, !Qle_bool_iff. intros [H0 Hd].
  split; [lra|].
  set (v := variance xs) in *. set (d := (x - mean xs)%Q) in *.
  assert (t1 * t1 <= t2 * t2)%Q by nra.
  assert (t1 * t1 * v <= t2 * t2 * v)%Q by nra.
  lra.
Qed.

(** X1.  With a negative threshold [remove_outliers_zscore] raises nothing
    and removes every row. *)
Theorem negative_threshold_removes_all (df : DataFrame) (column : string)
    (col : Transaction -> Q) (threshold : Q) :
  numeric_column column = Some col ->
  (threshold < 0)%Q ->
  remove_outliers_zscore df column threshold = Some [].
Proof.
  intros Hcol Ht. rewrite (remove_outliers_zscore_filter _ _ _ _ Hcol).
  f_equal. apply filter_none. intros r _. now apply abs_le_negative.
Qed.

Lemma negative_threshold_removes_all_witness :
  remove_outliers_zscore sample_table "item_price" (-1) = Some [].
Proof.
  apply (negative_threshold_removes_all sample_table "item_price" item_price (-1)).
  - reflexivity.
  - reflexivity.
Defined.

(** X2.  Raising the threshold only keeps more rows: the table filtered with
    the smaller threshold is obtained from the table filtered with the larger
    one by removing rows. *)
Theorem larger_threshold_keeps_more (df : DataFrame) (column : string)
    (t1 t2 : Q) (out1 out2 : DataFrame) :
  (t1 <= t2)%Q ->
  remove_outliers_zscore df column t1 = Some out1 ->
  remove_outliers_zscore df column t2 = Some out2 ->
  (exists keep, out1 = filter keep out2) /\ incl out1 out2.
Proof.
  intros Ht E1 E2.
  destruct (numeric_column column) as [col|] eqn:Hcol;
    [|unfold remove_outliers_zscore in E1; rewrite Hcol in E1; discriminate].
  rewrite (remove_outliers_zscore_filter _ _ _ t1 Hcol) in E1.
  rewrite (remove_outliers_zscore_filter _ _ _ t2 Hcol) in E2.
  injection E1 as <-. injection E2 as <-.
  assert (Href := filter_refines
            (fun r => abs_le (zscore_at (map col df) (col r)) t1)
            (fun r => abs_le (zscore_at (map col df) (col r)) t2) df
            (fun r => abs_le_mono (map col df) (col r) t1 t2 Ht)).
  split.
  - eexists. exact Href.
  - rewrite Href. apply incl_filter.
Qed.

Lemma larger_threshold_keeps_more_witness :
  exists out1 out2,
    remove_outliers_zscore sample_table "item_price" 1 = Some out1 /\
    remove_outliers_zscore sample_table "item_price" 3 = Some out2 /\
    incl out1 out2.
Proof.
  eexists. eexists. split; [reflexivity|]. split; [reflexivity|].
  apply (larger_threshold_keeps_more sample_table "item_price" 1 3);
    [discriminate | reflexivity | reflexivity].
Defined.

(** ** CategoryRanker: totals and dominance *)

Lemma ranking_length (data : DataFrame) :
  List.length (sort_by_total_desc (category_sales data))
  = distinct_categories data.
Proof.
  unfold sort_by_total_desc. rewrite isort_length.
  rewrite <- (length_map category), category_sales_categories.
  apply group_keys_length.
Qed.

Lemma top_categories_prefix (data : DataFrame) (top_n : Z) :
  top_categories data top_n
  = firstn (head_length top_n (distinct_categories data))
           (sort_by_total_desc (category_sales data)).
Proof. unfold top_categories. now rewrite head_firstn, ranking_length. Qed.

Lemma ranking_strongly_sorted (data : DataFrame) :
  StronglySorted (fun a b => (category_total b <= category_total a)%Q)
                 (sort_by_total_desc (category_sales data)).
Proof.
  apply Sorted_StronglySorted.
  - intros a b c Hab Hbc. eapply Qle_trans; eassumption.
  - apply Sorted_LocallySorted_iff. unfold sort_by_total_desc.
    eapply LocallySorted_impl; [|apply isort_sorted].
    + intros a b Hab. now apply Qle_bool_iff.
    + intros a b. apply total_desc_total.
Qed.

Lemma StronglySorted_app_le {A : Type} (R : A -> A -> Prop) (l1 l2 : list A) :
  StronglySorted R (l1 ++ l2) ->
  forall a b, In a l1 -> In b l2 -> R a b.
Proof.
  induction l1 as [|x l1 IH]; intros Hs a b Ha Hb; [contradiction|].
  cbn [app] in Hs. apply StronglySorted_inv in Hs. destruct Hs as [Hs Hall].
  destruct Ha as [->|Ha].
  - rewrite Forall_forall in Hall. apply Hall, in_or_app. now right.
  - now apply IH.
Qed.

(** X5.  The categories returned are the top ones: every category that
    [top_categories] cuts off has a total that is at most the total of every
    category it returns. *)
Theorem top_categories_dominate (data : DataFrame) (top_n : Z)
    (e e' : CategorySummary) :
  In e (top_categories data top_n) ->
  In e' (skipn (head_length top_n (distinct_categories data))
               (sort_by_total_desc (category_sales data))) ->
  (category_total e' <= category_total e)%Q.
Proof.
  rewrite top_categories_prefix. intros He He'.
  pose proof (ranking_strongly_sorted data) as Hs.
  rewrite <- (firstn_skipn (head_length top_n (distinct_categories data))) in Hs.
  exact (StronglySorted_app_le _ _ _ Hs e e' He He').
Qed.

Lemma top_categories_dominate_witness :
  (category_total (mkCategorySummary "games" 50)
   <= category_total (mkCategorySummary "books" 130))%Q.
Proof.
  apply (top_categories_dominate sample_table 1).
  - left. reflexivity.
  - left. reflexivity.
Defined.

(** ** CustomerSegmenter: totals, order of the segments *)

Lemma segment_level_select (total p33 p66 : Q) :
  segment_level
    (np_select (conditions total (Some p33) (Some p66)) choices
               "low_spenders"%string)
  = if Qle_bool total p33 then 0%nat
    else if Qle_bool total p66 then 1%nat else 2%nat.
Proof.
  unfold conditions, choices, le_nan, gt_nan. cbn [np_select].
  destruct (Qle_bool total p33); [reflexivity|]. cbn [negb andb].
  destruct (Qle_bool total p66); reflexivity.
Qed.

Lemma customer_segmentation_thresholds (data : DataFrame) :
  data <> [] ->
  exists p33 p66,
    quantile (map snd (user_spending data)) (33 # 100) = Some p33 /\
    quantile (map snd (user_spending data)) (66 # 100) = Some p66 /\
    forall s, In s (customer_segmentation data) ->
      segment s = np_select (conditions (spending s) (Some p33) (Some p66))
                            choices "low_spenders"%string.
Proof.
  intro Hne.
  assert (Hxs : map snd (user_spending data) <> []).
  { intro H. apply map_eq_nil in H. unfold user_spending in H.
    now apply groupby_sum_nil in H. }
  destruct (quantile (map snd (user_spending data)) (33 # 100)) as [p33|] eqn:E33;
    [|destruct (map snd (user_spending data)); [congruence | discriminate]].
  destruct (quantile (map snd (user_spending data)) (66 # 100)) as [p66|] eqn:E66;
    [|destruct (map snd (user_spending data)); [congruence | discriminate]].
  exists p33, p66. split; [reflexivity|]. split; [reflexivity|].
  intros s Hs. unfold customer_segmentation in Hs. cbv zeta in Hs.
  rewrite E33, E66 in Hs. apply in_map_iff in Hs.
  destruct Hs as (us & <- & _). reflexivity.
Qed.

(** X7.  The segments follow the spending: a user who spent at least as much
    as another one is never in a lower segment. *)
Theorem segments_follow_spending (data : DataFrame) (a b : CustomerSegment) :
  In a (customer_segmentation data) ->
  In b (customer_segmentation data) ->
  (spending a <= spending b)%Q ->
  (segment_level (segment a) <= segment_level (segment b))%nat.
Proof.
  intros Ha Hb Hab.
  assert (Hne : data <> []) by (intros ->; contradiction).
  destruct (customer_segmentation_thresholds data Hne) as (p33 & p66 & _ & _ & Hseg).
  rewrite (Hseg a Ha), (Hseg b Hb), !segment_level_select.
  destruct (Qle_bool (spending a) p33) eqn:A1; [lia|].
  destruct (Qle_bool (spending b) p33) eqn:B1.
  { apply Qle_bool_iff in B1.
    assert (spending a <= p33)%Q by lra.
    apply Qle_bool_iff in H. congruence. }
  destruct (Qle_bool (spending b) p66) eqn:B2;
    [|destruct (Qle_bool (spending a) p66); lia].
  apply Qle_bool_iff in B2.
  assert (H : (spending a <= p66)%Q) by lra.
  apply Qle_bool_iff in H. rewrite H. lia.
Qed.

Lemma segments_follow_spending_witness :
  (segment_level "low_spenders" <= segment_level "high_spenders")%nat.
Proof.
  apply (segments_follow_spending sample_table
           (mkCustomerSegment 2 30 "low_spenders")
           (mkCustomerSegment 1 150 "high_spenders")).
  - right. left. reflexivity.
  - left. reflexivity.
  - discriminate.
Defined.

(** X8.  A user whose total is the smallest of all is a [low_spenders] user;
    so is, in particular, the only user of a table with one user. *)
Theorem smallest_spender_is_low (data : DataFrame) (s : CustomerSegment) :
  In s (customer_segmentation data) ->
  (forall s', In s' (customer_segmentation data) ->
              (spending s <= spending s')%Q) ->
  segment s = "low_spenders"%string.
Proof.
  intros Hs Hmin.
  assert (Hne : data <> []) by (intros ->; contradiction).
  destruct (customer_segmentation_thresholds data Hne)
    as (p33 & p66 & E33 & _ & Hseg).
  rewrite (Hseg s Hs). unfold conditions, choices, le_nan. cbn [np_select].
  assert (Hle : (spending s <= p33)%Q).
  { set (xs := map snd (user_spending data)) in *.
    assert (Hxs : xs <> []) by (intros E; rewrite E in E33; discriminate).
    assert (Hn : (0 < List.length xs)%nat)
      by (destruct xs; [congruence | simpl; lia]).
    rewrite (quantile_interpolate _ _ Hxs) in E33. injection E33 as <-.
    destruct (position_bounds _ (33 # 100) Hn) as [Ha Hb];
      [discriminate | discriminate |].
    set (h := (inject_Z (Z.of_nat (List.length xs) - 1) * (33 # 100))%Q) in *.
    assert (Hb' : (h <= inject_Z
                     (Z.of_nat (List.length (isort Qle_bool xs)) - 1))%Q)
      by (rewrite isort_length; exact Hb).
    destruct (interpolate_bounds _ (isort_Qle_sorted xs) h Ha Hb') as [Hlow _].
    pose proof (floor_index _ h Ha Hb') as Hi.
    eapply Qle_trans; [|exact Hlow].
    assert (Hin : In (nth (Z.to_nat (Qfloor h)) (isort Qle_bool xs) 0%Q) xs)
      by (apply (isort_In Qle_bool), nth_In; lia).
    unfold xs in Hin at 2. rewrite <- customer_segmentation_spending in Hin.
    apply in_map_iff in Hin. destruct Hin as (s' & E & Hs').
    rewrite <- E. now apply Hmin. }
  apply Qle_bool_iff in Hle. now rewrite Hle.
Qed.

Lemma smallest_spender_is_low_witness :
  segment (mkCustomerSegment 2 30 "low_spenders") = "low_spenders"%string.
Proof.
  apply (smallest_spender_is_low sample_table).
  - right. left. reflexivity.
  - intros s' Hs'. vm_compute in Hs'.
    destruct Hs' as [<-|[<-|[]]]; discriminate.
Defined.

(** ** CohortRetentionAnalyzer: shape of the output *)

(** X9.  The output has one record per (cohort, period) pair: no pair
    appears twice. *)
Theorem one_record_per_cohort_period (data : DataFrame) (time_period : string)
    (out : list CohortRetention) :
  cohort_retention_analysis data time_period = Some out ->
  NoDup (map (fun x => (retention_cohort x, retention_period x)) out).
Proof.
  intro H. apply cohort_retention_analysis_Some in H.
  destruct H as (bucket & _ & ->).
  rewrite retention_table_rows, map_map.
  cbn [retention_record retention_cohort retention_period].
  rewrite (map_ext _ (fun cp => cp)) by (now intros [c p]).
  rewrite map_id. unfold cohort_periods. apply isort_NoDup, NoDup_nodup.
Qed.

Lemma one_record_per_cohort_period_witness :
  exists out,
    cohort_retention_analysis sample_table "M" = Some out /\
    NoDup (map (fun x => (retention_cohort x, retention_period x)) out).
Proof.
  eexists. split; [reflexivity|].
  apply (one_record_per_cohort_period sample_table "M"). reflexivity.
Defined.

(** X10.  The records of one cohort all carry the same [cohort_size]. *)
Theorem cohort_size_consistent (data : DataFrame) (time_period : string)
    (out : list CohortRetention) (x y : CohortRetention) :
  cohort_retention_analysis data time_period = Some out ->
  In x out -> In y out ->
  retention_cohort x = retention_cohort y ->
  cohort_size x = cohort_size y.
Proof.
  intro H. apply cohort_retention_analysis_Some in H.
  destruct H as (bucket & _ & ->). intros Hx Hy.
  apply retention_table_In in Hx, Hy.
  destruct Hx as (c & p & u & _ & ->), Hy as (c' & p' & u' & _ & ->).
  cbn [retention_cohort cohort_size]. now intros ->.
Qed.

Lemma cohort_size_consistent_witness :
  cohort_size (mkCohortRetention 612 0 2 2 (200 # 2))
  = cohort_size (mkCohortRetention 612 1 1 2 (100 # 2)).
Proof.
  apply (cohort_size_consistent sample_table "M" _ _ _ eq_refl).
  - left. reflexivity.
  - right. left. reflexivity.
  - reflexivity.
Defined.

Lemma rate_pos (k n : nat) : (0 < k)%nat -> (0 < n)%nat -> (0 < rate k n)%Q.
Proof.
  intros Hk Hn. unfold rate.
  pose proof (inject_nat_pos k Hk) as Ha. pose proof (inject_nat_pos n Hn) as Hb.
  set (a := inject_Z (Z.of_nat k)) in *. set (b := inject_Z (Z.of_nat n)) in *.
  assert (0 < a / b)%Q by (apply Qlt_shift_div_l; [exact Hb | lra]).
  lra.
Qed.

(** X11.  The output is sparse: every record counts at least one retained
    user and has a positive rate; a period without purchases of a cohort has
    no record. *)
Theorem retained_users_positive (data : DataFrame) (time_period : string)
    (out : list CohortRetention) :
  cohort_retention_analysis data time_period = Some out ->
  Forall (fun x => (0 < retained_users x)%nat /\ (0 < retention_rate x)%Q) out.
Proof.
  intro H. apply cohort_retention_analysis_Some in H.
  destruct H as (bucket & _ & ->). apply Forall_forall. intros x Hx.
  apply retention_table_In in Hx. destruct Hx as (c & p & u & Hk & ->).
  cbn [retained_users retention_rate].
  assert (Hpos : (0 < nunique (period_users (cohort_data
             (assign_period bucket (assign_cohort bucket data))) c p))%nat)
    by (apply (nunique_pos _ u); now apply period_users_In).
  split; [exact Hpos|]. apply rate_pos; [exact Hpos|].
  now apply (cohort_size_pos bucket data c p u).
Qed.

Lemma retained_users_positive_witness :
  exists out,
    cohort_retention_analysis sample_table "M" = Some out /\
    Forall (fun x => (0 < retained_users x)%nat /\ (0 < retention_rate x)%Q) out.
Proof.
  eexists. split; [reflexivity|].
  apply (retained_users_positive sample_table "M"). reflexivity.
Defined.

(** ** CohortRetentionAnalyzer: periods count forward *)

Lemma to_period_calendar_mono (time_period : string) (bucket : date -> Z)
    (a b : date) :
  time_period = "M"%string \/ time_period = "Q"%string \/
  time_period = "Y"%string ->
  to_period time_period = Some bucket ->
  valid_month a -> valid_month b ->
  date_leb a b = true -> bucket a <= bucket b.
Proof.
  unfold valid_month, date_leb. intros Htp Hb Ha Hvb Hle.
  assert (Hym : year a < year b \/ (year a = year b /\ month a <= month b)).
  { destruct (Z.ltb_spec (year a) (year b)); [now left|].
    destruct (Z.ltb_spec (year b) (year a)); [discriminate|].
    right. split; [lia|].
    destruct (Z.ltb_spec (month a) (month b)); [lia|].
    destruct (Z.ltb_spec (month b) (month a)); [discriminate | lia]. }
  clear Hle.
  destruct Htp as [-> | [-> | ->]]; cbn in Hb; injection Hb as <-.
  - lia.
  - assert (0 <= (month a - 1) / 3 <= 3)
      by (split; [apply Z.div_pos; lia
                 | apply Z.lt_succ_r, Z.div_lt_upper_bound; lia]).
    assert (0 <= (month b - 1) / 3 <= 3)
      by (split; [apply Z.div_pos; lia
                 | apply Z.lt_succ_r, Z.div_lt_upper_bound; lia]).
    destruct Hym as [Hy|[Hy Hm]]; [lia|].
    assert ((month a - 1) / 3 <= (month b - 1) / 3)
      by (apply Z.div_le_mono; lia).
    lia.
  - lia.
Qed.

Lemma first_purchase_le (data : DataFrame) (r : Transaction) :
  date_leb (first_purchase data r) (transaction_date r) = true.
Proof. unfold first_purchase. apply fold_min_least. now left. Qed.

(** X13.  With a monthly, quarterly or yearly period the [period] of every
    record is a number of buckets counted forward from the cohort: it is
    never negative. *)
Theorem period_never_negative (data : DataFrame) (time_period : string)
    (out : list CohortRetention) :
  time_period = "M"%string \/ time_period = "Q"%string \/
  time_period = "Y"%string ->
  Forall (fun r => valid_month (transaction_date r)) data ->
  cohort_retention_analysis data time_period = Some out ->
  Forall (fun x => 0 <= retention_period x) out.
Proof.
  intros Htp Hvalid H. apply cohort_retention_analysis_Some in H.
  destruct H as (bucket & Hb & ->). apply Forall_forall. intros x Hx.
  apply retention_table_In in Hx. destruct Hx as (c & p & u & Hk & ->).
  cbn [retention_period]. rewrite assigned_keys in Hk.
  apply in_map_iff in Hk. destruct Hk as (r & E & Hr).
  unfold row_key in E. injection E as _ <- _.
  rewrite Forall_forall in Hvalid.
  destruct (first_purchase_attained data r Hr) as (r0 & Hr0 & _ & Hd).
  assert (bucket (first_purchase data r) <= bucket (transaction_date r)).
  { apply (to_period_calendar_mono time_period); auto.
    - rewrite <- Hd. now apply Hvalid.
    - apply first_purchase_le. }
  lia.
Qed.

Lemma period_never_negative_witness :
  exists out,
    cohort_retention_analysis sample_table "M" = Some out /\
    Forall (fun x => 0 <= retention_period x) out.
Proof.
  eexists. split; [reflexivity|].
  apply (period_never_negative sample_table "M").
  - now left.
  - repeat constructor; discriminate.
  - reflexivity.
Defined.

(** ** CohortRetentionAnalyzer: what the result depends on *)

Lemma user_dates_same (d1 d2 : DataFrame) (u : Z) :
  map user_id d1 = map user_id d2 ->
  map transaction_date d1 = map transaction_date d2 ->
  map transaction_date (filter (fun r' => user_id r' =? u) d1)
  = map transaction_date (filter (fun r' => user_id r' =? u) d2).
Proof.
  revert d2. induction d1 as [|a d1 IH]; intros [|b d2] Hu Hd;
    try discriminate; [reflexivity|].
  cbn [map] in Hu, Hd. injection Hu as Hu1 Hu. injection Hd as Hd1 Hd.
  cbn [filter]. rewrite Hu1. destruct (user_id b =? u); cbn [map].
  - rewrite Hd1. f_equal. now apply IH.
  - now apply IH.
Qed.

Lemma row_keys_same (bucket : date -> Z) (d1 d2 : DataFrame) :
  map user_id d1 = map user_id d2 ->
  map transaction_date d1 = map transaction_date d2 ->
  map (row_key bucket d1) d1 = map (row_key bucket d2) d2.
Proof.
  intros Hu Hd.
  assert (H : forall l1 l2,
             map user_id l1 = map user_id l2 ->
             map transaction_date l1 = map transaction_date l2 ->
             map (row_key bucket d1) l1 = map (row_key bucket d2) l2).
  { induction l1 as [|a l1 IH]; intros [|b l2] Hu' Hd';
      try discriminate; [reflexivity|].
    cbn [map] in Hu', Hd'. injection Hu' as Hu1 Hu'. injection Hd' as Hd1 Hd'.
    cbn [map]. f_equal; [|now apply IH].
    unfold row_key, first_purchase.
    now rewrite Hu1, Hd1, (user_dates_same d1 d2 (user_id b) Hu Hd). }
  now apply H.
Qed.

Lemma retention_table_keys (d1 d2 : DataFrame) :
  frame_keys d1 = frame_keys d2 -> retention_table d1 = retention_table d2.
Proof.
  intro H. unfold retention_table, cohort_data. now rewrite H.
Qed.

(** X14.  The result depends on the [user_id] and [transaction_date] columns
    only: two tables that agree on them give the same result, whatever their
    other columns hold, and whether or not [cohort] and [period] were
    already assigned.  So a second run on the table that a first run has
    modified returns the same result. *)
Theorem retention_depends_on_user_and_date (d1 d2 : DataFrame)
    (time_period : string) :
  map user_id d1 = map user_id d2 ->
  map transaction_date d1 = map transaction_date d2 ->
  cohort_retention_analysis d1 time_period
  = cohort_retention_analysis d2 time_period.
Proof.
  intros Hu Hd. unfold cohort_retention_analysis.
  destruct (to_period time_period) as [bucket|] eqn:E.
  - rewrite !(cohort_retention_frame_valid _ _ _ E). cbn [snd]. f_equal.
    apply retention_table_keys. rewrite !assigned_keys.
    now apply row_keys_same.
  - now rewrite !(cohort_retention_frame_invalid _ _ E).
Qed.

Lemma retention_depends_on_user_and_date_witness :
  cohort_retention_analysis sample_table "M"
  = cohort_retention_analysis (cohort_retention_effect sample_table "M") "M".
Proof.
  apply (retention_depends_on_user_and_date sample_table
           (cohort_retention_effect sample_table "M") "M").
  - reflexivity.
  - reflexivity.
Defined.

(** ** The task [cleansing_data] *)

Lemma keep_some_In {A : Type} (a : A) (l : list (option A)) :
  In a (keep_some l) <-> In (Some a) l.
Proof.
  induction l as [|[b|] l IH]; cbn [keep_some In].
  - tauto.
  - rewrite IH. split; intros [H|H]; auto; left; congruence.
  - rewrite IH. split; [auto | intros [H|H]; [discriminate | exact H]].
Qed.

Lemma filter_twice {A : Type} (f g : A -> bool) (l : list A) :
  filter g (filter f l) = filter (fun a => f a && g a) l.
Proof.
  induction l as [|a l IH]; [reflexivity|]. cbn [filter].
  destruct (f a); cbn [filter andb]; [destruct (g a)|]; now rewrite IH.
Qed.

Lemma cleansing_data_filters (transactions_data : list RawTransaction) :
  exists keep1 keep2,
    remove_outliers_zscore (dropna transactions_data) "item_price" 3
    = Some (filter keep1 (dropna transactions_data)) /\
    cleansing_data transactions_data
    = Some (filter keep2 (filter keep1 (dropna transactions_data))).
Proof.
  unfold cleansing_data, convert_transaction_date. cbv zeta.
  rewrite (remove_outliers_zscore_filter _ "item_price" item_price 3 eq_refl).
  rewrite (remove_outliers_zscore_filter _ "quantity"
             (fun r => inject_Z (quantity r)) 3 eq_refl).
  eexists. eexists. split; reflexivity.
Qed.

(** X15.  [cleansing_data] raises nothing; it returns, in their order, rows
    of the input that have no missing cell: a row with a missing cell never
    reaches the output, and no cell of a row is changed. *)
Theorem cleansing_data_keeps_complete_rows
    (transactions_data : list RawTransaction) :
  exists out,
    cleansing_data transactions_data = Some out /\
    (exists keep, out = filter keep (dropna transactions_data)) /\
    Forall (fun r => exists x, In x transactions_data /\
                               complete_row x = Some r /\
                               raw_item_price x = Some (item_price r) /\
                               raw_quantity x = Some (quantity r)) out.
Proof.
  destruct (cleansing_data_filters transactions_data) as (k1 & k2 & _ & E).
  eexists. split; [exact E|]. split.
  - eexists. apply filter_twice.
  - apply Forall_forall. intros r Hr.
    apply filter_In in Hr. destruct Hr as [Hr _].
    apply filter_In in Hr. destruct Hr as [Hr _].
    unfold dropna in Hr. apply keep_some_In, in_map_iff in Hr.
    destruct Hr as (x & Hx & Hin). exists x. split; [exact Hin|].
    split; [exact Hx|]. unfold complete_row in Hx.
    destruct (raw_user_id x), (raw_item_id x), (raw_item_category x),
      (raw_item_price x), (raw_quantity x), (raw_transaction_date x);
      try discriminate.
    injection Hx as <-. split; reflexivity.
Qed.

Lemma Qsum_zero (f : Q -> Q) (xs : list Q) :
  (forall x, In x xs -> (f x == 0)%Q) -> (Qsum (map f xs) == 0)%Q.
Proof.
  induction xs as [|x xs IH]; intro H; [reflexivity|].
  cbn [map Qsum fold_right]. fold (Qsum (map f xs)).
  rewrite (H x) by now left. rewrite IH; [lra|].
  intros y Hy. apply H. now right.
Qed.

Lemma Qsum_constant (xs : list Q) (v : Q) :
  (forall x, In x xs -> (x == v)%Q) ->
  (Qsum xs == inject_Z (Z.of_nat (List.length xs)) * v)%Q.
Proof.
  induction xs as [|x xs IH]; intro H.
  - reflexivity.
  - cbn [Qsum fold_right List.length]. fold (Qsum xs).
    rewrite Nat2Z.inj_succ, <- Z.add_1_r, inject_Z_plus.
    rewrite (H x) by now left.
    rewrite IH by (intros y Hy; apply H; now right).
    change (inject_Z 1) with 1%Q. ring.
Qed.

Lemma variance_constant (xs : list Q) (v : Q) :
  (forall x, In x xs -> (x == v)%Q) -> (variance xs == 0)%Q.
Proof.
  intro H. destruct xs as [|x0 xs0] eqn:Exs; [reflexivity|]. rewrite <- Exs in *.
  assert (Hn : (0 < inject_Z (Z.of_nat (List.length xs)))%Q)
    by (apply inject_nat_pos; rewrite Exs; simpl; lia).
  assert (Hm : (mean xs == v)%Q).
  { unfold mean. rewrite (Qsum_constant xs v H).
    set (n := inject_Z (Z.of_nat (List.length xs))) in *. field. lra. }
  unfold variance. cbv zeta.
  rewrite (Qsum_zero (fun x => (x - mean xs) * (x - mean xs))%Q).
  - set (n := inject_Z (Z.of_nat (List.length xs))) in *. field. lra.
  - intros x Hx. rewrite (H x Hx), Hm. ring.
Qed.

(** X16.  When the rows without missing cells all have the same
    [item_price], or all the same [quantity], [cleansing_data] returns an
    empty table; this is the case of a file with a single transaction. *)
Theorem cleansing_data_constant_column
    (transactions_data : list RawTransaction) :
  (forall r r', In r (dropna transactions_data) ->
                In r' (dropna transactions_data) ->
                (item_price r == item_price r')%Q) \/
  (forall r r', In r (dropna transactions_data) ->
                In r' (dropna transactions_data) ->
                quantity r = quantity r') ->
  cleansing_data transactions_data = Some [].
Proof.
  intro H.
  destruct (cleansing_data_filters transactions_data) as (k1 & k2 & E1 & E).
  unfold cleansing_data, convert_transaction_date in *. cbv zeta in *.
  destruct H as [H|H].
  - rewrite (zero_variance_drops_all _ "item_price" item_price 3 eq_refl).
    + reflexivity.
    + destruct (dropna transactions_data) as [|r0 df] eqn:Edf; [reflexivity|].
      apply (variance_constant _ (item_price r0)). intros x Hx.
      apply in_map_iff in Hx. destruct Hx as (r & <- & Hr).
      apply H; [exact Hr | now left].
  - rewrite E1.
    apply (zero_variance_drops_all _ "quantity"
             (fun r => inject_Z (quantity r)) 3 eq_refl).
    destruct (filter k1 (dropna transactions_data)) as [|r0 df] eqn:Edf;
      [reflexivity|].
    apply (variance_constant _ (inject_Z (quantity r0))). intros x Hx.
    apply in_map_iff in Hx. destruct Hx as (r & <- & Hr).
    assert (Hin : forall y, In y (r0 :: df) -> In y (dropna transactions_data)).
    { intros y Hy. rewrite <- Edf in Hy. now apply filter_In in Hy. }
    rewrite (H r r0); [reflexivity | now apply Hin | apply Hin; now left].
Qed.

Lemma cleansing_data_constant_column_witness :
  cleansing_data [raw_row 1 "books" 10 1 (mkDate 2021 1 5)] = Some [].
Proof.
  apply cleansing_data_constant_column. left.
  intros r r' Hr Hr'. vm_compute in Hr, Hr'.
  destruct Hr as [<-|[]], Hr' as [<-|[]]. reflexivity.
Defined.

(** ** CohortRetentionAnalyzer: the cohorts partition the users *)

Lemma indicator_sum (k : Z) (cs : list Z) :
  NoDup cs -> In k cs ->
  list_sum (map (fun c => if k =? c then 1%nat else 0%nat) cs) = 1%nat.
Proof.
  induction cs as [|c cs IH]; [contradiction|].
  intros Hnd Hin. inversion Hnd as [|? ? Hnot Hnd']; subst.
  cbn [map list_sum fold_right].
  fold (list_sum (map (fun c => if k =? c then 1%nat else 0%nat) cs)).
  destruct (Z.eqb_spec k c) as [->|Hne].
  - assert (E : map (fun c0 => if c =? c0 then 1%nat else 0%nat) cs
                = map (fun _ => 0%nat) cs).
    { apply map_ext_in. intros c0 Hc0.
      destruct (Z.eqb_spec c c0) as [->|_]; [contradiction | reflexivity]. }
    rewrite E. clear. induction cs as [|a cs IH]; [reflexivity|].
    cbn [map list_sum fold_right] in *. exact IH.
  - destruct Hin as [E|Hin]; [congruence|]. now rewrite IH.
Qed.

Lemma count_partition (f : Z -> Z) (cs users : list Z) :
  NoDup cs -> (forall u, In u users -> In (f u) cs) ->
  list_sum (map (fun c => List.length (filter (fun u => f u =? c) users)) cs)
  = List.length users.
Proof.
  intro Hnd. induction users as [|u users IH]; intro Hin.
  - cbn [filter List.length]. clear. induction cs as [|a cs IH]; [reflexivity|].
    cbn [map list_sum fold_right] in *. exact IH.
  - assert (E : map (fun c => List.length (filter (fun u0 => f u0 =? c) (u :: users))) cs
                = map (fun c => Nat.add (if Z.eqb (f u) c then 1%nat else 0%nat)
                                  (List.length
                                     (filter (fun u0 => f u0 =? c) users)))
                      cs).
    { apply map_ext. intro c. cbn [filter].
      destruct (f u =? c); reflexivity. }
    rewrite E. clear E.
    assert (Hadd : forall (g h : Z -> nat) (l : list Z),
               list_sum (map (fun c => (g c + h c)%nat) l)
               = (list_sum (map g l) + list_sum (map h l))%nat).
    { intros g h l. unfold list_sum.
      induction l as [|a l IHl]; [reflexivity|].
      cbn [map fold_right]. rewrite IHl. lia. }
    rewrite (Hadd (fun c => if Z.eqb (f u) c then 1%nat else 0%nat)
                  (fun c => List.length (filter (fun u0 => f u0 =? c) users))).
    rewrite indicator_sum; [|exact Hnd|apply Hin; now left].
    rewrite IH by (intros u' Hu'; apply Hin; now right).
    reflexivity.
Qed.

Section CohortPartition.
Variables (bucket : date -> Z) (data : DataFrame).

Let assigned := assign_period bucket (assign_cohort bucket data).

Lemma user_cohort_row (r : Transaction) :
  In r data -> user_cohort bucket data (user_id r) = bucket (first_purchase data r).
Proof.
  intro Hr. unfold user_cohort.
  destruct (find (fun r' => user_id r' =? user_id r) data) as [r0|] eqn:E.
  - apply find_some in E. destruct E as [Hr0 Hu]. apply Z.eqb_eq in Hu.
    f_equal. now apply first_purchase_same_user.
  - apply (find_none _ _ E) in Hr. now rewrite Z.eqb_refl in Hr.
Qed.

Lemma cohort_users_partition (c u : Z) :
  In u (cohort_users (cohort_data assigned) c) <->
  In u (filter (fun u' => user_cohort bucket data u' =? c)
               (nodup Z.eq_dec (map user_id data))).
Proof.
  rewrite cohort_users_In, filter_In, nodup_In, in_map_iff. unfold assigned.
  split.
  - intros (p & Hk). rewrite assigned_keys in Hk. apply in_map_iff in Hk.
    destruct Hk as (r & E & Hr). unfold row_key in E. injection E as Ec _ Eu.
    split; [now exists r|]. apply Z.eqb_eq.
    now rewrite <- Eu, (user_cohort_row r Hr).
  - intros [(r & Eu & Hr) Hc]. apply Z.eqb_eq in Hc.
    exists (bucket (transaction_date r) - bucket (first_purchase data r)).
    rewrite assigned_keys. apply in_map_iff. exists r. split; [|exact Hr].
    unfold row_key. now rewrite <- Hc, <- Eu, (user_cohort_row r Hr).
Qed.

Lemma cohort_size_count (c : Z) :
  nunique (cohort_users (cohort_data assigned) c)
  = List.length (filter (fun u' => user_cohort bucket data u' =? c)
                        (nodup Z.eq_dec (map user_id data))).
Proof.
  unfold nunique. apply Permutation_length, NoDup_Permutation.
  - apply NoDup_nodup.
  - apply NoDup_filter, NoDup_nodup.
  - intro u. rewrite nodup_In. apply cohort_users_partition.
Qed.

Lemma period_zero_cohorts :
  let zero := filter (fun cp => snd cp =? 0) (cohort_periods (cohort_data assigned)) in
  NoDup (map fst zero) /\
  forall u, In u (nodup Z.eq_dec (map user_id data)) ->
            In (user_cohort bucket data u) (map fst zero).
Proof.
  cbv zeta. split.
  - apply NoDup_map_NoDup_ForallPairs.
    + intros [c p] [c' p'] Ha Hb E. cbn [fst] in E.
      apply filter_In in Ha, Hb. destruct Ha as [_ Ha], Hb as [_ Hb].
      cbn [snd] in Ha, Hb. apply Z.eqb_eq in Ha, Hb. congruence.
    + apply NoDup_filter. unfold cohort_periods.
      apply isort_NoDup, NoDup_nodup.
  - intros u Hu. apply nodup_In, in_map_iff in Hu.
    destruct Hu as (r & <- & Hr). rewrite (user_cohort_row r Hr).
    apply in_map_iff. exists (bucket (first_purchase data r), 0).
    split; [reflexivity|]. apply filter_In. split; [|reflexivity].
    unfold cohort_periods. apply isort_In, nodup_In, cohort_pairs_In.
    exists (user_id r).
    apply (period_zero_key bucket data _
             (bucket (transaction_date r) - bucket (first_purchase data r))).
    rewrite assigned_keys. apply in_map_iff. now exists r.
Qed.

Lemma cohort_sizes_sum :
  list_sum (map cohort_size
              (filter (fun x => retention_period x =? 0)
                      (retention_table assigned)))
  = nunique (map user_id data).
Proof.
  rewrite retention_table_rows, filter_map_swap. cbn [retention_record retention_period].
  rewrite map_map. cbn [cohort_size].
  destruct period_zero_cohorts as [Hnd Hin].
  rewrite (map_ext _ (fun cp =>
             List.length (filter (fun u' => user_cohort bucket data u' =? fst cp)
                                 (nodup Z.eq_dec (map user_id data)))))
    by (intro cp; apply cohort_size_count).
  rewrite <- (map_map fst (fun c =>
             List.length (filter (fun u' => user_cohort bucket data u' =? c)
                                 (nodup Z.eq_dec (map user_id data))))).
  now rewrite count_partition.
Qed.
End CohortPartition.

(** X18.  The cohorts partition the users: every user of the table belongs
    to exactly one cohort, so the [cohort_size] of the period-0 records (one
    per cohort) add up to the number of distinct users of the table. *)
Theorem cohort_sizes_add_up (data : DataFrame) (time_period : string)
    (out : list CohortRetention) :
  cohort_retention_analysis data time_period = Some out ->
  list_sum (map cohort_size (filter (fun x => retention_period x =? 0) out))
  = nunique (map user_id data).
Proof.
  intro H. apply cohort_retention_analysis_Some in H.
  destruct H as (bucket & _ & ->). apply cohort_sizes_sum.
Qed.

Lemma cohort_sizes_add_up_witness :
  exists out,
    cohort_retention_analysis raw_table_sample "M" = Some out /\
    list_sum (map cohort_size (filter (fun x => retention_period x =? 0) out))
    = nunique (map user_id raw_table_sample).
Proof.
  eexists. split; [reflexivity|].
  apply (cohort_sizes_add_up raw_table_sample "M"). reflexivity.
Defined.

(** * Properties of the helpers on the numbers and objects of pandas *)

(** ** Comparisons of doubles *)


Lemma fle_total (a b : Machine.fnum) :
  Machine.is_nan a = false -> Machine.is_nan b = false ->
  Machine.fle a b = false -> Machine.fle b a = true.
Proof.
  destruct a as [|[|]|x], b as [|[|]|y]; cbn;
    try discriminate; try reflexivity.
  intros _ _. apply Qle_bool_total.
Qed.

Lemma fle_not_nan (a b : Machine.fnum) :
  Machine.fle a b = true ->
  Machine.is_nan a = false /\ Machine.is_nan b = false.
Proof.
  destruct a as [|[|]|x], b as [|[|]|y]; cbn; try discriminate; auto.
Qed.




Lemma same_value_sym (a b : Machine.fnum) :
  Machine.same_value a b -> Machine.same_value b a.
Proof.
  destruct a as [|[|]|x], b as [|[|]|y]; cbn; auto. intro E. now symmetry.
Qed.

Lemma same_value_trans (a b c : Machine.fnum) :
  Machine.same_value a b -> Machine.same_value b c -> Machine.same_value a c.
Proof.
  destruct a as [|[|]|x], b as [|[|]|y], c as [|[|]|z]; cbn; auto;
    try contradiction; try discriminate.
  intros E1 E2. now rewrite E1.
Qed.


(** ** Sub-sequences and boolean indexing *)




Section MachineProperties.
Context {N : Machine.Numerics}.

(** ** OutlierFilter *)


(** ** CategoryRanker *)

Lemma desc_leb_total (a b : Machine.CategoryTotal) :
  Machine.desc_leb a b = false -> Machine.desc_leb b a = true.
Proof.
  unfold Machine.desc_leb. intro H. apply orb_false_iff in H.
  destruct H as [Hb Hba].
  destruct (Machine.is_nan (Machine.ct_total a)) eqn:Ha; [reflexivity|].
  cbn [orb]. now apply fle_total.
Qed.

Lemma machine_category_sales_categories (data : DataFrame) :
  map Machine.ct_category (Machine.category_sales data)
  = group_keys string_dec String.leb item_category data.
Proof.
  unfold Machine.category_sales, Machine.groupby_agg. rewrite !map_map.
  cbn [Machine.ct_category fst]. apply map_id.
Qed.

(** C6, amended.  [top_categories] returns a prefix of the ranking of the
    per-category sums of [total_amount] (one entry per distinct category,
    each sum as pandas computes it over the rows of the category), ordered
    with the sums non-increasing and NaN sums last.  For [top_n >= 0] the
    prefix has length [min top_n (distinct categories)], so that [top_n = 0]
    gives the empty sequence and a [top_n] above the number of categories
    gives all of them; for [top_n < 0] it has all entries but the last
    [- top_n]. *)
Theorem top_categories_prefix_of_ranking (data : DataFrame) (top_n : Z) :
  exists ranking : list Machine.CategoryTotal,
    Permutation ranking (Machine.category_sales data) /\
    LocallySorted Machine.ranks_before ranking /\
    Machine.top_categories data top_n
      = firstn (head_length top_n (distinct_categories data)) ranking /\
    List.length (Machine.top_categories data top_n)
      = head_length top_n (distinct_categories data) /\
    NoDup (map Machine.ct_category (Machine.category_sales data)) /\
    (forall c, In c (map Machine.ct_category (Machine.category_sales data))
               <-> In c (map item_category data)) /\
    Forall (fun e =>
              Machine.ct_total e
              = Machine.sum_lib
                  (map total_amount
                     (filter (fun r => String.eqb (item_category r)
                                         (Machine.ct_category e)) data)))
           (Machine.category_sales data).
Proof.
  assert (Hlen : List.length (Machine.sort_by_total_desc
                                (Machine.category_sales data))
                 = distinct_categories data).
  { unfold Machine.sort_by_total_desc. rewrite isort_length.
    rewrite <- (length_map Machine.ct_category),
      machine_category_sales_categories.
    apply group_keys_length. }
  exists (Machine.sort_by_total_desc (Machine.category_sales data)).
  split; [apply Permutation_sym, isort_perm|].
  split.
  { unfold Machine.sort_by_total_desc.
    eapply LocallySorted_impl; [|apply isort_sorted, desc_leb_total].
    intros a b Hab. unfold Machine.desc_leb in Hab.
    apply orb_true_iff in Hab. exact Hab. }
  split; [unfold Machine.top_categories; now rewrite head_firstn, Hlen|].
  split.
  { unfold Machine.top_categories.
    rewrite head_firstn, Hlen, length_firstn, Hlen.
    apply Nat.min_l, head_length_le. }
  split; [rewrite machine_category_sales_categories; apply group_keys_NoDup|].
  split.
  - intro c. rewrite machine_category_sales_categories. apply group_keys_In.
  - apply Forall_forall. intros e He. unfold Machine.category_sales in He.
    apply in_map_iff in He. destruct He as (kv & <- & Hkv).
    unfold Machine.groupby_agg in Hkv. apply in_map_iff in Hkv.
    destruct Hkv as (k & <- & _). cbn [Machine.ct_total Machine.ct_category fst snd].
    do 2 f_equal. apply filter_ext. intro r. apply key_is_eqb.
Qed.

(** ** CustomerSegmenter *)


Lemma machine_segmentation_totals (data : DataFrame) :
  map Machine.sr_total (Machine.customer_segmentation data)
  = map snd (Machine.user_spending data).
Proof.
  unfold Machine.customer_segmentation, Machine.with_segment. cbv zeta.
  rewrite map_map. reflexivity.
Qed.

Lemma machine_segmentation_row (data : DataFrame) (s : Machine.SegmentRow) :
  In s (Machine.customer_segmentation data) ->
  let totals := map Machine.sr_total (Machine.customer_segmentation data) in
  Machine.sr_total s
  = Machine.sum_lib
      (map total_amount
         (filter (fun r => user_id r =? Machine.sr_user s) data)) /\
  Machine.sr_segment s
  = np_select
      (Machine.conditions (Machine.sr_total s)
         (Machine.quantile_lib totals (33 # 100))
         (Machine.quantile_lib totals (66 # 100)))
      choices "low_spenders"%string.
Proof.
  intros Hs totals. unfold totals. rewrite machine_segmentation_totals.
  unfold Machine.customer_segmentation, Machine.with_segment in Hs.
  cbv zeta in Hs. apply in_map_iff in Hs. destruct Hs as (us & <- & Hus).
  cbn [Machine.sr_total Machine.sr_user Machine.sr_segment].
  split; [|reflexivity].
  unfold Machine.user_spending, Machine.groupby_agg in Hus.
  apply in_map_iff in Hus. destruct Hus as (k & <- & _). cbn [fst snd].
  do 2 f_equal. apply filter_ext. intro r. unfold key_is.
  destruct (Z.eq_dec (user_id r) k) as [E|E].
  - symmetry. now apply Z.eqb_eq.
  - symmetry. now apply Z.eqb_neq.
Qed.




(** C10.  Every record that [customer_segmentation] returns has one of the
    three segment names, and a user for whose total none of the three
    conditions holds (a threshold or the total is NaN) is a [low_spenders]
    user: the default of [np.select] is that name. *)
Theorem segment_names_and_default (data : DataFrame) :
  let out := Machine.customer_segmentation data in
  let totals := map Machine.sr_total out in
  let p33 := Machine.quantile_lib totals (33 # 100) in
  let p66 := Machine.quantile_lib totals (66 # 100) in
  Forall (fun s =>
            (Machine.sr_segment s = "low_spenders"%string \/
             Machine.sr_segment s = "medium_spenders"%string \/
             Machine.sr_segment s = "high_spenders"%string) /\
            (Machine.conditions (Machine.sr_total s) p33 p66
             = [false; false; false] ->
             Machine.sr_segment s = "low_spenders"%string)) out.
Proof.
  cbv zeta. apply Forall_forall. intros s Hs.
  destruct (machine_segmentation_row data s Hs) as [_ Hseg].
  rewrite Hseg. split.
  - unfold Machine.conditions, choices. cbn [np_select].
    destruct (Machine.fle _ _); [now left|].
    destruct (_ && _); [right; now left|].
    destruct (Machine.fgt _ _); [right; now right | now left].
  - intros ->. reflexivity.
Qed.

(** ** The store *)

Lemma nth_error_old {A : Type} (s l : list A) (r : nat) (x : A) :
  nth_error s r = Some x -> nth_error (s ++ l) r = Some x.
Proof.
  intro H. rewrite nth_error_app1; [exact H|].
  apply nth_error_Some. congruence.
Qed.

Lemma nth_error_new {A : Type} (s : list A) (x : A) :
  nth_error (s ++ [x]) (List.length s) = Some x.
Proof. rewrite nth_error_app2, Nat.sub_diag by lia. reflexivity. Qed.

Lemma replace_nth_new {A : Type} (s : list A) (x y : A) :
  Machine.replace_nth (List.length s) y (s ++ [x]) = s ++ [y].
Proof. induction s as [|a s IH]; cbn; [reflexivity | now rewrite IH]. Qed.

Lemma replace_nth_length {A : Type} (n : nat) (x : A) (l : list A) :
  List.length (Machine.replace_nth n x l) = List.length l.
Proof.
  revert n. induction l as [|a l IH]; intros [|n]; cbn; auto.
Qed.

Lemma replace_nth_same {A : Type} (n : nat) (x : A) (l : list A) :
  (n < List.length l)%nat -> nth_error (Machine.replace_nth n x l) n = Some x.
Proof.
  revert n. induction l as [|a l IH]; intros [|n] H; cbn in *; try lia.
  - reflexivity.
  - apply IH. lia.
Qed.

Lemma replace_nth_other {A : Type} (n m : nat) (x : A) (l : list A) :
  m <> n -> nth_error (Machine.replace_nth n x l) m = nth_error l m.
Proof.
  revert n m. induction l as [|a l IH]; intros [|n] [|m] H; cbn; auto;
    try congruence.
Qed.

Lemma replace_nth_twice {A : Type} (n : nat) (x y : A) (l : list A) :
  Machine.replace_nth n y (Machine.replace_nth n x l) = Machine.replace_nth n y l.
Proof.
  revert n. induction l as [|a l IH]; intros [|n]; cbn; auto.
  now rewrite IH.
Qed.

Lemma read_transactions_at (s : Machine.Store) (r : Machine.ref)
    (rows : DataFrame) :
  nth_error s r = Some (Machine.Transactions rows) ->
  Machine.read_transactions r s = (s, Some rows).
Proof.
  intro H. unfold Machine.read_transactions, Machine.hbind, Machine.read,
    Machine.hraise_if_none. now rewrite H.
Qed.

Lemma setitem_at (s : Machine.Store) (r : Machine.ref) (f f' : Machine.frame) :
  nth_error s r = Some f ->
  Machine.setitem r f' s = (Machine.replace_nth r f' s, Some tt).
Proof.
  intro H. unfold Machine.setitem.
  assert (Hlt : (r < List.length s)%nat) by (apply nth_error_Some; congruence).
  apply Nat.ltb_lt in Hlt. now rewrite Hlt.
Qed.

Lemma run_remove_outliers_zscore_result (s : Machine.Store) (df : Machine.ref)
    (rows : DataFrame) (column : string) (threshold : Q) :
  nth_error s df = Some (Machine.Transactions rows) ->
  Machine.run_remove_outliers_zscore df column threshold s
  = match Machine.remove_outliers_zscore rows column threshold with
    | Some out => (s ++ [Machine.Transactions out], Some (List.length s))
    | None => (s, None)
    end.
Proof.
  intro H. unfold Machine.run_remove_outliers_zscore, Machine.hbind.
  rewrite (read_transactions_at _ _ _ H).
  unfold Machine.hraise_if_none, Machine.remove_outliers_zscore.
  destruct (numeric_column column); reflexivity.
Qed.

Lemma run_top_categories_result (s : Machine.Store) (data : Machine.ref)
    (rows : DataFrame) (top_n : Z) :
  nth_error s data = Some (Machine.Transactions rows) ->
  Machine.run_top_categories data top_n s
  = (s ++ [Machine.Categories (Machine.category_sales rows);
           Machine.Categories
             (Machine.sort_by_total_desc (Machine.category_sales rows));
           Machine.Categories (Machine.top_categories rows top_n)],
     Some (S (S (List.length s)))).
Proof.
  intro H. unfold Machine.run_top_categories, Machine.hbind.
  rewrite (read_transactions_at _ _ _ H).
  unfold Machine.alloc, Machine.read_categories, Machine.hbind, Machine.read,
    Machine.hraise_if_none.
  rewrite nth_error_new, nth_error_new.
  rewrite !length_app. cbn [List.length].
  rewrite <- !app_assoc. cbn [app].
  f_equal. f_equal. lia.
Qed.

Lemma run_customer_segmentation_result (s : Machine.Store)
    (data : Machine.ref) (rows : DataFrame) :
  nth_error s data = Some (Machine.Transactions rows) ->
  Machine.run_customer_segmentation data s
  = (s ++ [Machine.Segments (Machine.customer_segmentation rows)],
     Some (List.length s)).
Proof.
  intro H. unfold Machine.run_customer_segmentation, Machine.hbind.
  rewrite (read_transactions_at _ _ _ H).
  unfold Machine.alloc, Machine.read_spending, Machine.hbind, Machine.read,
    Machine.hraise_if_none.
  rewrite nth_error_new.
  rewrite (setitem_at _ _ _ _ (nth_error_new s _)), replace_nth_new.
  reflexivity.
Qed.

Lemma with_retention_rate_merge (left : list (Z * Z * nat))
    (right : list (Z * nat)) :
  Machine.with_retention_rate (Machine.merge_rows left right)
  = merge_on_cohort left right.
Proof.
  unfold Machine.with_retention_rate, Machine.merge_rows, merge_on_cohort.
  induction left as [|l left IH]; [reflexivity|].
  cbn [flat_map]. rewrite map_app, IH, map_map. reflexivity.
Qed.

Lemma run_cohort_retention_analysis_result (s : Machine.Store)
    (data : Machine.ref) (rows : DataFrame) (time_period : string)
    (bucket : date -> Z) :
  nth_error s data = Some (Machine.Transactions rows) ->
  to_period time_period = Some bucket ->
  let assigned := assign_period bucket (assign_cohort bucket rows) in
  Machine.run_cohort_retention_analysis data time_period s
  = (Machine.replace_nth data (Machine.Transactions assigned) s
       ++ [Machine.CohortData (cohort_data assigned);
           Machine.CohortSizes (cohort_sizes (cohort_data assigned));
           Machine.RetainedUsers (retained (cohort_data assigned));
           Machine.Retention (retention_table assigned)],
     Some (S (S (S (List.length s))))).
Proof.
  intros H Hb assigned.
  assert (Hlt : (data < List.length s)%nat) by (apply nth_error_Some; congruence).
  unfold Machine.run_cohort_retention_analysis, Machine.hbind.
  rewrite (read_transactions_at _ _ _ H), (setitem_at _ _ _ _ H).
  unfold Machine.hraise_if_none at 1. rewrite Hb.
  unfold convert_transaction_date.
  pose proof (replace_nth_same data (Machine.Transactions rows) s Hlt) as H1.
  rewrite (read_transactions_at _ _ _ H1), (setitem_at _ _ _ _ H1),
    replace_nth_twice.
  pose proof (replace_nth_same data
                (Machine.Transactions (assign_cohort bucket rows)) s Hlt) as H2.
  rewrite (read_transactions_at _ _ _ H2), (setitem_at _ _ _ _ H2),
    replace_nth_twice.
  fold assigned.
  pose proof (replace_nth_same data (Machine.Transactions assigned) s Hlt) as H3.
  rewrite (read_transactions_at _ _ _ H3).
  set (s3 := Machine.replace_nth data (Machine.Transactions assigned) s).
  assert (Hlen : List.length s3 = List.length s) by apply replace_nth_length.
  unfold Machine.alloc, Machine.read_cohort_data, Machine.read_cohort_sizes,
    Machine.read_retained_users, Machine.read_merged, Machine.hbind,
    Machine.read, Machine.hraise_if_none, Machine.hret.
  rewrite nth_error_new.
  rewrite (nth_error_old _ [_] _ _ (nth_error_new s3 _)).
  rewrite nth_error_new.
  rewrite (nth_error_old _ [_] _ _ (nth_error_new (s3 ++ [_]) _)).
  rewrite nth_error_new.
  rewrite (setitem_at _ _ _ _ (nth_error_new _ _)), replace_nth_new.
  rewrite with_retention_rate_merge.
  rewrite !length_app, Hlen. cbn [List.length].
  rewrite <- !app_assoc. cbn [app].
  f_equal. f_equal. lia.
Qed.

(** ** Effects on the caller's table *)

(** C5, amended.  On a store that holds the input table,
    [remove_outliers_zscore], [top_categories] and [customer_segmentation]
    leave the input table and every other object as they are: they only
    allocate new tables, and the column that [customer_segmentation] assigns
    is a column of a table it has allocated.  [cohort_retention_analysis],
    with a period that the model covers, leaves every other object as it is
    but changes the input table in place: the rows keep their number, order
    and every column of the input schema, and get the columns [cohort] and
    [period]. *)
Theorem helpers_effects_on_store (s : Machine.Store) (data : Machine.ref)
    (rows : DataFrame) :
  nth_error s data = Some (Machine.Transactions rows) ->
  (forall column threshold,
      Machine.extends s
        (fst (Machine.run_remove_outliers_zscore data column threshold s))) /\
  (forall top_n,
      Machine.extends s (fst (Machine.run_top_categories data top_n s))) /\
  Machine.extends s (fst (Machine.run_customer_segmentation data s)) /\
  (forall time_period bucket,
      to_period time_period = Some bucket ->
      let s' := fst (Machine.run_cohort_retention_analysis data time_period s) in
      let assigned := assign_period bucket (assign_cohort bucket rows) in
      nth_error s' data = Some (Machine.Transactions assigned) /\
      Forall2 same_transaction rows assigned /\
      Forall (fun r => cohort r <> None /\ period r <> None) assigned /\
      (forall r, r <> data -> (r < List.length s)%nat ->
                 nth_error s' r = nth_error s r)).
Proof.
  intro H. split; [|split; [|split]].
  - intros column threshold.
    rewrite (run_remove_outliers_zscore_result _ _ _ _ _ H).
    destruct (Machine.remove_outliers_zscore rows column threshold);
      cbn [fst]; [eexists; reflexivity | exists []; now rewrite app_nil_r].
  - intro top_n. rewrite (run_top_categories_result _ _ _ _ H). cbn [fst].
    eexists. reflexivity.
  - rewrite (run_customer_segmentation_result _ _ _ H). cbn [fst].
    eexists. reflexivity.
  - intros tp bucket Hb.
    rewrite (run_cohort_retention_analysis_result _ _ _ _ _ H Hb).
    cbv zeta. cbn [fst].
    assert (Hlt : (data < List.length s)%nat)
      by (apply nth_error_Some; congruence).
    split; [|split; [|split]].
    + apply nth_error_old. now apply replace_nth_same.
    + eapply Forall2_same_trans;
        [apply assign_cohort_same | apply assign_period_same].
    + unfold assign_period, assign_cohort. rewrite map_map.
      apply Forall_forall. intros r Hr. apply in_map_iff in Hr.
      destruct Hr as (r0 & <- & _). split; discriminate.
    + intros r Hne Hr. rewrite nth_error_app1
        by (now rewrite replace_nth_length).
      now apply replace_nth_other.
Qed.

End MachineProperties.

(** ** The sample numerics *)

Lemma same_valueb_true (a b : Machine.fnum) :
  Machine.same_value a b -> same_valueb a b = true.
Proof.
  destruct a as [|s|x], b as [|s'|y]; cbn; try contradiction; auto.
  - intros ->. apply Bool.eqb_reflx.
  - apply Qeq_bool_iff.
Qed.

Lemma sample_quantile_constant (xs : list Machine.fnum) (v : Machine.fnum)
    (q : Q) :
  xs <> [] -> (forall x, In x xs -> Machine.same_value x v) ->
  Machine.same_value (sample_quantile xs q) v \/
  sample_quantile xs q = Machine.FNaN.
Proof.
  intros Hne Hall. destruct xs as [|h xs]; [congruence|].
  assert (Hh : Machine.same_value h v) by (apply Hall; now left).
  assert (Hc : forallb (same_valueb h) (h :: xs) = true).
  { apply forallb_forall. intros x Hx. apply same_valueb_true.
    eapply same_value_trans; [exact Hh|]. apply same_value_sym. now apply Hall. }
  unfold sample_quantile. rewrite Hc.
  destruct h; [now right | now right | now left].
Qed.

Definition sample_numerics : Machine.Numerics :=
  {| Machine.zscore_lib := sample_zscore;
     Machine.sum_lib := fun xs => saturate (Qsum xs);
     Machine.quantile_lib := sample_quantile;
     Machine.zscore_lib_length := fun xs => length_map _ xs;
     Machine.quantile_lib_constant := sample_quantile_constant |}.




Lemma segment_names_and_default_witness :
  Forall (fun s => Machine.sr_segment s = "low_spenders"%string)
         (@Machine.customer_segmentation sample_numerics overflow_table).
Proof.
  pose proof (@segment_names_and_default sample_numerics overflow_table) as H.
  cbv zeta in H. rewrite Forall_forall in H. apply Forall_forall.
  intros s Hs. destruct (H s Hs) as [_ Hdefault]. apply Hdefault.
  vm_compute in Hs. destruct Hs as [<-|[]]. vm_compute. reflexivity.
Defined.

Lemma helpers_effects_on_store_witness :
  let s := [Machine.Transactions sample_table] in
  Machine.extends s
    (fst (@Machine.run_customer_segmentation sample_numerics 0%nat s)) /\
  nth_error (fst (Machine.run_cohort_retention_analysis 0%nat "M" s)) 0%nat
  = Some (Machine.Transactions
            (assign_period (fun d => (year d - 1970) * 12 + (month d - 1))
               (assign_cohort (fun d => (year d - 1970) * 12 + (month d - 1))
                  sample_table))).
Proof.
  cbv zeta.
  destruct (@helpers_effects_on_store sample_numerics
              [Machine.Transactions sample_table] 0%nat sample_table eq_refl)
    as (_ & _ & Hseg & Hcohort).
  split; [exact Hseg|].
  apply (Hcohort "M"%string _ eq_refl).
Defined.

(** C5 as stated fails: after [cohort_retention_analysis] the object that
    was passed in no longer holds the table it held. *)
Lemma cohort_retention_analysis_changes_its_input :
  nth_error
    (fst (Machine.run_cohort_retention_analysis 0%nat "M"
            [Machine.Transactions sample_table])) 0%nat
  <> Some (Machine.Transactions sample_table) /\
  ~ Machine.extends [Machine.Transactions sample_table]
      (fst (Machine.run_cohort_retention_analysis 0%nat "M"
              [Machine.Transactions sample_table])).
Proof.
  split.
  - vm_compute. discriminate.
  - intros (new & E). vm_compute in E. discriminate E.
Qed.

(** X12.  When [cohort_retention_analysis] succeeds on a table with at least
    one row, its output has at least one record. *)
Theorem retention_of_rows_is_not_empty (data : DataFrame)
    (time_period : string) (out : list CohortRetention) :
  cohort_retention_analysis data time_period = Some out ->
  data <> [] -> out <> [].
Proof.
  intro H. apply cohort_retention_analysis_Some in H.
  destruct H as (bucket & _ & ->). intros Hne E.
  destruct data as [|r data]; [congruence|].
  assert (Hk : In (row_key bucket (r :: data) r)
                  (frame_keys (assign_period bucket
                                 (assign_cohort bucket (r :: data)))))
    by (rewrite assigned_keys; now left).
  destruct (row_key bucket (r :: data) r) as [[c p] u].
  assert (Hin := proj2 (retention_table_In _ _)
                   (ex_intro _ c (ex_intro _ p (ex_intro _ u (conj Hk eq_refl))))).
  rewrite E in Hin. exact Hin.
Qed.

Lemma retention_of_rows_is_not_empty_witness :
  exists out,
    cohort_retention_analysis sample_table "M" = Some out /\ out <> [].
Proof.
  eexists. split; [reflexivity|].
  apply (retention_of_rows_is_not_empty sample_table "M");
    [reflexivity | discriminate].
Defined.
